(** * app.js: the chat widget's reply normalisation and send lifecycle

    A shallow embedding of [src/app.js]:
    - JavaScript strings are sequences of UTF-16 code units;
    - JavaScript values are the data values a response body or an object
      literal can hold (no functions, symbols, accessors or proxies; every
      object has the built-in prototype of its kind);
    - [extractBotReply] is a function into completions (a returned value or a
      thrown error);
    - [sendText], an async function, is a transition system: one transition
      for each run of its code between two suspension points. *)

From Stdlib Require Import String Ascii List NArith ZArith Bool Lia.
Import ListNotations.

Set Warnings "-register-all".

(* ================================================================== *)
(** * Strings *)
(* ================================================================== *)

(** A JavaScript string: its UTF-16 code units. *)
Definition jsstring := list N.

Module Utf8.
Open Scope N_scope.

(** Bytes of a source literal. *)
Fixpoint bytes (s : string) : list N :=
  match s with
  | EmptyString => []
  | String c rest => N_of_ascii c :: bytes rest
  end.

(** Code units of one code point. *)
Definition units (cp : N) : list N :=
  if cp <? 0x10000 then [cp]
  else [0xD800 + (cp - 0x10000) / 0x400; 0xDC00 + (cp - 0x10000) mod 0x400].

Definition cont (b : N) : N := b mod 0x40.

(** The literals of this file are well-formed UTF-8; an ill-formed byte is
    passed on as it is. *)
Fixpoint decode (bs : list N) : list N :=
  match bs with
  | [] => []
  | b :: rest =>
      if b <? 0x80 then b :: decode rest
      else if b <? 0xE0 then
        match rest with
        | c1 :: rest1 => units ((b - 0xC0) * 0x40 + cont c1) ++ decode rest1
        | [] => [b]
        end
      else if b <? 0xF0 then
        match rest with
        | c1 :: c2 :: rest2 =>
            units ((b - 0xE0) * 0x1000 + cont c1 * 0x40 + cont c2) ++ decode rest2
        | _ => b :: decode rest
        end
      else
        match rest with
        | c1 :: c2 :: c3 :: rest3 =>
            units ((b - 0xF0) * 0x40000 + cont c1 * 0x1000 + cont c2 * 0x40 + cont c3)
              ++ decode rest3
        | _ => b :: decode rest
        end
  end.
End Utf8.

(** The JavaScript string a source literal denotes. *)
Definition js (s : string) : jsstring := Utf8.decode (Utf8.bytes s).

Definition jsstring_eqb (a b : jsstring) : bool :=
  if list_eq_dec N.eq_dec a b then true else false.

(** WhiteSpace and LineTerminator code points, as [String.prototype.trim]
    strips them. *)
Definition isWhiteSpace (c : N) : bool :=
  ((9 <=? c) && (c <=? 13) || (c =? 0x20) || (c =? 0xA0) || (c =? 0x1680)
   || (0x2000 <=? c) && (c <=? 0x200A) || (c =? 0x2028) || (c =? 0x2029)
   || (c =? 0x202F) || (c =? 0x205F) || (c =? 0x3000) || (c =? 0xFEFF))%N.

Fixpoint trimStart (s : jsstring) : jsstring :=
  match s with
  | c :: rest => if isWhiteSpace c then trimStart rest else s
  | [] => []
  end.

Definition trimEnd (s : jsstring) : jsstring := rev (trimStart (rev s)).

(** [s.trim()] *)
Definition trim (s : jsstring) : jsstring := trimEnd (trimStart s).

(** Decimal digits of a natural number. *)
Fixpoint uint_units (d : Decimal.uint) : jsstring :=
  match d with
  | Decimal.Nil => []
  | Decimal.D0 r => 48%N :: uint_units r
  | Decimal.D1 r => 49%N :: uint_units r
  | Decimal.D2 r => 50%N :: uint_units r
  | Decimal.D3 r => 51%N :: uint_units r
  | Decimal.D4 r => 52%N :: uint_units r
  | Decimal.D5 r => 53%N :: uint_units r
  | Decimal.D6 r => 54%N :: uint_units r
  | Decimal.D7 r => 55%N :: uint_units r
  | Decimal.D8 r => 56%N :: uint_units r
  | Decimal.D9 r => 57%N :: uint_units r
  end.

Definition decimal (n : N) : jsstring := uint_units (N.to_uint n).

Definition decimalZ (z : Z) : jsstring :=
  if (z <? 0)%Z then js "-" ++ decimal (Z.abs_N z) else decimal (Z.abs_N z).

(* ================================================================== *)
(** * Values *)
(* ================================================================== *)

(** A Number.  A finite non-zero double is held by the integers [s] and [n]
    that [Number::toString] is specified with: its value is [s * 10^(n-k)],
    [k] the number of decimal digits of [s]. *)
Inductive number :=
| NaN
| Infinity (negative : bool)
| Zero (negative : bool)
| Finite (negative : bool) (s : positive) (n : Z).

Inductive value :=
| JUndefined
| JNull
| JBool (b : bool)
| JNumber (x : number)
| JBigInt (z : Z)
| JString (s : jsstring)
| JArray (elements : list value)
| JObject (properties : list (jsstring * value)).
(** [properties] lists an object's own properties in the order of
    [[OwnPropertyKeys]]. *)

Record error := Error { name : jsstring; message : jsstring }.

(** What evaluating an expression or a block ends in. *)
Inductive completion (A : Type) :=
| Return (a : A)
| Throw (e : error).
Arguments Return {A} a.
Arguments Throw {A} e.

Definition bind {A B} (c : completion A) (k : A -> completion B) : completion B :=
  match c with
  | Return a => k a
  | Throw e => Throw e
  end.

Notation "x <- c ;; k" := (bind c (fun x => k))
  (at level 61, c at next level, right associativity).

(** [new TypeError(message)] *)
Definition TypeError (m : jsstring) : error := Error (js "TypeError") m.

(** [new Error(message)] *)
Definition new_Error (m : jsstring) : error := Error (js "Error") m.

Inductive type_tag :=
| T_undefined | T_object | T_boolean | T_number | T_bigint | T_string.

Definition type_tag_eqb (a b : type_tag) : bool :=
  match a, b with
  | T_undefined, T_undefined | T_object, T_object | T_boolean, T_boolean
  | T_number, T_number | T_bigint, T_bigint | T_string, T_string => true
  | _, _ => false
  end.

(** [typeof v] *)
Definition typeof (v : value) : type_tag :=
  match v with
  | JUndefined => T_undefined
  | JNull | JArray _ | JObject _ => T_object
  | JBool _ => T_boolean
  | JNumber _ => T_number
  | JBigInt _ => T_bigint
  | JString _ => T_string
  end.

(** Truthiness. *)
Definition ToBoolean (v : value) : bool :=
  match v with
  | JUndefined | JNull => false
  | JBool b => b
  | JNumber NaN | JNumber (Zero _) => false
  | JNumber _ => true
  | JBigInt z => negb (z =? 0)%Z
  | JString s => match s with [] => false | _ => true end
  | JArray _ | JObject _ => true
  end.

(** [v === null] *)
Definition is_null (v : value) : bool :=
  match v with JNull => true | _ => false end.

(** [v] is [null] or [undefined], the test of [??]. *)
Definition nullish (v : value) : bool :=
  match v with JUndefined | JNull => true | _ => false end.

Fixpoint own (ps : list (jsstring * value)) (k : jsstring) : option value :=
  match ps with
  | [] => None
  | (k', v) :: rest => if jsstring_eqb k' k then Some v else own rest k
  end.

(** [k in v], for the names app.js asks ([text], [message]): none of them is
    an index, [length] or a property of a built-in prototype. *)
Definition HasProperty (v : value) (k : jsstring) : bool :=
  match v with
  | JObject ps => match own ps k with Some _ => true | None => false end
  | _ => false
  end.

(** [v.k], for the names app.js asks ([text], [message], [error],
    [errorRaw], [body]). *)
Definition Get (v : value) (k : jsstring) : value :=
  match v with
  | JObject ps => match own ps k with Some x => x | None => JUndefined end
  | _ => JUndefined
  end.

(** [Object.keys(v)] of an object or an array. *)
Definition Object_keys (v : value) : list jsstring :=
  match v with
  | JObject ps => map fst ps
  | JArray l => map (fun i => decimal (N.of_nat i)) (seq 0 (length l))
  | _ => []
  end.

(** ** Conversion to string *)

Definition zeros (n : Z) : jsstring := repeat 48%N (Z.to_nat n).

(** [Number::toString(x)] in radix 10. *)
Definition Number_toString (x : number) : jsstring :=
  match x with
  | NaN => js "NaN"
  | Zero _ => js "0"
  | Infinity neg => (if neg then js "-" else []) ++ js "Infinity"
  | Finite neg s n =>
      let ds := decimal (Npos s) in
      let k := Z.of_nat (length ds) in
      (if neg then js "-" else []) ++
      (if (-5 <=? n)%Z && (n <=? 21)%Z then
         if (k <=? n)%Z then ds ++ zeros (n - k)
         else if (0 <? n)%Z then
           firstn (Z.to_nat n) ds ++ js "." ++ skipn (Z.to_nat n) ds
         else js "0." ++ zeros (- n) ++ ds
       else
         let e := (n - 1)%Z in
         let exponent :=
           js "e" ++ (if (e <? 0)%Z then js "-" else js "+") ++ decimal (Z.abs_N e) in
         match ds with
         | d :: (_ :: _) as rest => d :: js "." ++ rest ++ exponent
         | _ => ds ++ exponent
         end)
  end.

Definition cannot_convert : error :=
  TypeError (js "Cannot convert object to primitive value").

(** [String(v)], as ECMA-262 defines it.  An array is joined with commas
    ([undefined] and [null] elements are empty).  A plain object gives
    [Object.prototype.toString]'s text unless it has an own property
    [toString]: that one is not callable, neither is an own [valueOf], and
    [Object.prototype.valueOf] gives the object back, so that the conversion
    throws.

    The language has no limit on nesting; an engine has one, and throws a
    RangeError when arrays nested some thousand deep exhaust its stack.  No
    statement below says on which values [String] returns: each takes the
    completion of the conversion as it comes. *)
Fixpoint ToString (v : value) : completion jsstring :=
  match v with
  | JUndefined => Return (js "undefined")
  | JNull => Return (js "null")
  | JBool b => Return (if b then js "true" else js "false")
  | JNumber x => Return (Number_toString x)
  | JBigInt z => Return (decimalZ z)
  | JString s => Return s
  | JArray l =>
      (fix join (l : list value) : completion jsstring :=
         match l with
         | [] => Return []
         | x :: rest =>
             s <- (if nullish x then Return [] else ToString x) ;;
             match rest with
             | [] => Return s
             | _ => r <- join rest ;; Return (s ++ js "," ++ r)
             end
         end) l
  | JObject ps =>
      match own ps (js "toString") with
      | Some _ => Throw cannot_convert
      | None => Return (js "[object Object]")
      end
  end.

(* ================================================================== *)
(** * JSON.stringify *)
(* ================================================================== *)

Definition LF : N := 10.
Definition QUOTATION_MARK : N := 34.
Definition REVERSE_SOLIDUS : N := 92.

Definition hexdigit (d : N) : N := (if d <? 10 then 48 + d else 87 + d)%N.

(** [\uXXXX], in lower case. *)
Definition UnicodeEscape (c : N) : jsstring :=
  [REVERSE_SOLIDUS; 117%N; hexdigit (c / 4096 mod 16); hexdigit (c / 256 mod 16);
   hexdigit (c / 16 mod 16); hexdigit (c mod 16)].

Definition isLeadingSurrogate (c : N) : bool := ((0xD800 <=? c) && (c <=? 0xDBFF))%N.
Definition isTrailingSurrogate (c : N) : bool := ((0xDC00 <=? c) && (c <=? 0xDFFF))%N.

Fixpoint QuoteJSONString_units (s : jsstring) : jsstring :=
  match s with
  | [] => []
  | c :: rest =>
      if (c =? 8)%N then REVERSE_SOLIDUS :: 98%N :: QuoteJSONString_units rest
      else if (c =? 9)%N then REVERSE_SOLIDUS :: 116%N :: QuoteJSONString_units rest
      else if (c =? 10)%N then REVERSE_SOLIDUS :: 110%N :: QuoteJSONString_units rest
      else if (c =? 12)%N then REVERSE_SOLIDUS :: 102%N :: QuoteJSONString_units rest
      else if (c =? 13)%N then REVERSE_SOLIDUS :: 114%N :: QuoteJSONString_units rest
      else if (c =? QUOTATION_MARK)%N then
        REVERSE_SOLIDUS :: QUOTATION_MARK :: QuoteJSONString_units rest
      else if (c =? REVERSE_SOLIDUS)%N then
        REVERSE_SOLIDUS :: REVERSE_SOLIDUS :: QuoteJSONString_units rest
      else if (c <? 0x20)%N then UnicodeEscape c ++ QuoteJSONString_units rest
      else if isLeadingSurrogate c then
        match rest with
        | c2 :: rest2 =>
            if isTrailingSurrogate c2 then c :: c2 :: QuoteJSONString_units rest2
            else UnicodeEscape c ++ QuoteJSONString_units rest
        | [] => UnicodeEscape c
        end
      else if isTrailingSurrogate c then UnicodeEscape c ++ QuoteJSONString_units rest
      else c :: QuoteJSONString_units rest
  end.

Definition QuoteJSONString (s : jsstring) : jsstring :=
  QUOTATION_MARK :: QuoteJSONString_units s ++ [QUOTATION_MARK].

Fixpoint join (sep : jsstring) (parts : list jsstring) : jsstring :=
  match parts with
  | [] => []
  | [p] => p
  | p :: rest => p ++ sep ++ join sep rest
  end.

(** The text of an object ([{] [}]) or an array ([[] []]) from the texts of
    its members. *)
Definition wrap (opening closing : N) (gap stepback : jsstring) (partial : list jsstring)
  : jsstring :=
  match partial with
  | [] => [opening; closing]
  | _ =>
      match gap with
      | [] => opening :: join (js ",") partial ++ [closing]
      | _ =>
          let indent := stepback ++ gap in
          opening :: LF :: indent ++ join (js "," ++ LF :: indent) partial
            ++ LF :: stepback ++ [closing]
      end
  end.

Definition cannot_serialize : error :=
  TypeError (js "Do not know how to serialize a BigInt").

(** [SerializeJSONProperty]: [None] is [undefined], which [JSON.stringify]
    gives for [undefined] and leaves out of an object.  No value of this model
    has a callable [toJSON]. *)
Fixpoint SerializeJSONProperty (gap indent : jsstring) (v : value)
  : completion (option jsstring) :=
  match v with
  | JUndefined => Return None
  | JNull => Return (Some (js "null"))
  | JBool b => Return (Some (if b then js "true" else js "false"))
  | JNumber x =>
      Return (Some match x with
                   | NaN | Infinity _ => js "null"
                   | _ => Number_toString x
                   end)
  | JBigInt _ => Throw cannot_serialize
  | JString s => Return (Some (QuoteJSONString s))
  | JArray l =>
      partial <-
        (fix elements (l : list value) : completion (list jsstring) :=
           match l with
           | [] => Return []
           | x :: rest =>
               strP <- SerializeJSONProperty gap (indent ++ gap) x ;;
               more <- elements rest ;;
               Return (match strP with Some t => t | None => js "null" end :: more)
           end) l ;;
      Return (Some (wrap 91 93 gap indent partial))
  | JObject ps =>
      partial <-
        (fix members (ps : list (jsstring * value)) : completion (list jsstring) :=
           match ps with
           | [] => Return []
           | (k, x) :: rest =>
               strP <- SerializeJSONProperty gap (indent ++ gap) x ;;
               more <- members rest ;;
               Return match strP with
                      | Some t =>
                          (QuoteJSONString k ++ js ":"
                             ++ match gap with [] => [] | _ => js " " end ++ t) :: more
                      | None => more
                      end
           end) ps ;;
      Return (Some (wrap 123 125 gap indent partial))
  end.

(** [JSON.stringify(v, null, space)] with a number of spaces;
    [JSON.stringify(v)] is [JSON_stringify v 0]. *)
Definition JSON_stringify (v : value) (space : nat) : completion (option jsstring) :=
  SerializeJSONProperty (repeat 32%N (Nat.min space 10)) [] v.

(* ================================================================== *)
(** * extractBotReply *)
(* ================================================================== *)

Definition PLEASE_REPHRASE : jsstring := js "請換個說法，謝謝您".
Definition NETWORK_UNSTABLE : jsstring := js "網路不穩定，請再試一次".
Definition MALFORMED_RESPONSE : jsstring := js "伺服器回應格式錯誤，請稍後再試".
Definition UNEXPECTED_RESPONSE : jsstring := js "系統回應異常，請稍後再試".

(** [s || "請換個說法，謝謝您"] for a string [s]. *)
Definition or_rephrase (s : jsstring) : jsstring :=
  match s with [] => PLEASE_REPHRASE | _ => s end.

(** The value [textContent] holds before it is tested (lines 137-143). *)
Definition textContent_of (data : value) : value :=
  if HasProperty data (js "text") then Get data (js "text")
  else if HasProperty data (js "message") then Get data (js "message")
  else JNull.

Definition meaningfulKeys (data : value) : list jsstring :=
  filter (fun k => negb (jsstring_eqb k (js "clientId"))) (Object_keys data).

Definition extractBotReply (data : value) (raw : jsstring) : completion value :=
  match data with
  | JString s => let trimmed := trim s in Return (JString (or_rephrase trimmed))
  | _ =>
      if negb (ToBoolean data) || negb (type_tag_eqb (typeof data) T_object) then
        Return (JString PLEASE_REPHRASE)
      else
        let textContent := textContent_of data in
        if negb (is_null textContent) then
          processed <- ToString textContent ;;
          Return (JString (or_rephrase (trim processed)))
        else
          match List.length (meaningfulKeys data) with
          | O => Return (JString NETWORK_UNSTABLE)
          | _ =>
              if ToBoolean (Get data (js "error")) then
                s <- ToString (Get data (js "error")) ;; Return (JString s)
              else if ToBoolean (Get data (js "errorRaw")) then
                Return (JString MALFORMED_RESPONSE)
              else
                match JSON_stringify data 2 with
                | Return (Some s) => Return (JString s)
                | Return None => Return JUndefined
                | Throw _ => Return (JString UNEXPECTED_RESPONSE)
                end
          end
  end.

(* ================================================================== *)
(** * The chat session *)
(* ================================================================== *)

Definition API_BASE : jsstring := js "https://taipei-marathon-server.onrender.com".
Definition api (p : jsstring) : jsstring := API_BASE ++ p.

Inductive Role := user | assistant.

Record Message := { id : jsstring; role : Role; text : value; ts : Z }.

(** The elements of the page, each of them possibly missing. *)
Record HTMLInputElement := { input_value : jsstring; input_disabled : bool }.
Record HTMLButtonElement := { button_disabled : bool }.
(** [#thinking]: whether its class list holds [hidden]. *)
Record ThinkingElement := { hidden : bool }.
(** A row [render] builds. *)
Record Row := { className : jsstring; avatar_src : jsstring; avatar_alt : jsstring;
                innerText : value }.

(** [init] of a [fetch] call. *)
Record RequestInit := { method : jsstring; headers : list (jsstring * jsstring);
                        body : option jsstring }.

(** A response as [sendText] reads it; [res.ok] is the status being within
    200-299. *)
Record Response := { status : N; statusText : jsstring }.
Definition ok (res : Response) : bool := ((200 <=? status res) && (status res <=? 299))%N.

(** A body read by [res.text()], with what [JSON.parse] of it ends in
    ([JSON.parse] is the host's). *)
Record ResponseText := { raw : jsstring; JSON_parse : completion value }.

Inductive settled (A : Type) :=
| Fulfilled (a : A)
| Rejected (reason : error).
Arguments Fulfilled {A} a.
Arguments Rejected {A} reason.

(** A call of [sendText] that is suspended at one of its two [await]s. *)
Inductive suspended :=
| Await_fetch
| Await_text (res : Response).

Record state := {
  clientId : jsstring;
  messages : list Message;
  isSending : bool;
  elMessages : option (list Row);
  elInput : option HTMLInputElement;
  elBtnSend : option HTMLButtonElement;
  elThinking : option ThinkingElement;
  pending : list suspended
}.

(** What the host answers during one run of code: the [i]-th [uid()] and
    [Date.now()] of the run, and [navigator.onLine]. *)
Record turn := { uid : nat -> jsstring; Date_now : nat -> Z; navigator_onLine : bool }.

Inductive effect :=
| Console_log (m : jsstring)
| Console_error (m : jsstring) (e : error)
| Fetch (url : jsstring) (init : RequestInit).

Definition with_messages (ms : list Message) (st : state) : state :=
  {| clientId := clientId st; messages := ms; isSending := isSending st;
     elMessages := elMessages st; elInput := elInput st; elBtnSend := elBtnSend st;
     elThinking := elThinking st; pending := pending st |}.

Definition with_isSending (b : bool) (st : state) : state :=
  {| clientId := clientId st; messages := messages st; isSending := b;
     elMessages := elMessages st; elInput := elInput st; elBtnSend := elBtnSend st;
     elThinking := elThinking st; pending := pending st |}.

Definition with_elMessages (rows : option (list Row)) (st : state) : state :=
  {| clientId := clientId st; messages := messages st; isSending := isSending st;
     elMessages := rows; elInput := elInput st; elBtnSend := elBtnSend st;
     elThinking := elThinking st; pending := pending st |}.

Definition with_elInput (el : option HTMLInputElement) (st : state) : state :=
  {| clientId := clientId st; messages := messages st; isSending := isSending st;
     elMessages := elMessages st; elInput := el; elBtnSend := elBtnSend st;
     elThinking := elThinking st; pending := pending st |}.

Definition with_elBtnSend (el : option HTMLButtonElement) (st : state) : state :=
  {| clientId := clientId st; messages := messages st; isSending := isSending st;
     elMessages := elMessages st; elInput := elInput st; elBtnSend := el;
     elThinking := elThinking st; pending := pending st |}.

Definition with_elThinking (el : option ThinkingElement) (st : state) : state :=
  {| clientId := clientId st; messages := messages st; isSending := isSending st;
     elMessages := elMessages st; elInput := elInput st; elBtnSend := elBtnSend st;
     elThinking := el; pending := pending st |}.

Definition with_pending (p : list suspended) (st : state) : state :=
  {| clientId := clientId st; messages := messages st; isSending := isSending st;
     elMessages := elMessages st; elInput := elInput st; elBtnSend := elBtnSend st;
     elThinking := elThinking st; pending := p |}.

(** [messages.push(m)] *)
Definition push (m : Message) (st : state) : state :=
  with_messages (messages st ++ [m]) st.

Definition set_disabled (b : bool) (st : state) : state :=
  with_elInput
    (option_map (fun el => {| input_value := input_value el; input_disabled := b |})
       (elInput st))
    (with_elBtnSend (option_map (fun _ => {| button_disabled := b |}) (elBtnSend st)) st).

(** The focus [setThinking(false)] gives to the input is not part of the
    state. *)
Definition setThinking (on : bool) (st : state) : state :=
  match elThinking st with
  | None => st
  | Some _ =>
      if on then set_disabled true (with_elThinking (Some {| hidden := false |}) st)
      else set_disabled false (with_elThinking (Some {| hidden := true |}) st)
  end.

Definition USER_AVATAR : jsstring :=
  js "https://raw.githubusercontent.com/justin-321-hub/taipei_marathon/refs/heads/main/assets/user-avatar.png".
Definition BOT_AVATAR : jsstring :=
  js "https://raw.githubusercontent.com/justin-321-hub/taipei_marathon/refs/heads/main/assets/logo.png".

Definition render_row (m : Message) : Row :=
  let isUser := match role m with user => true | assistant => false end in
  {| className := js "msg " ++ (if isUser then js "user" else js "bot");
     avatar_src := if isUser then USER_AVATAR else BOT_AVATAR;
     avatar_alt := if isUser then js "you" else js "bot";
     innerText := text m |}.

(** The scroll position [scrollToBottom] moves is not part of the state. *)
Definition render (st : state) : state :=
  match elMessages st with
  | None => st
  | Some _ => with_elMessages (Some (map render_row (messages st))) st
  end.

Definition OFFLINE : jsstring := js "目前處於離線狀態，請檢查網路連線後再試一次".

(** [Error.prototype.toString] *)
Definition Error_toString (e : error) : jsstring :=
  match name e, message e with
  | [], m => m
  | n, [] => n
  | n, m => n ++ js ": " ++ m
  end.

(** [(!navigator.onLine && "目前處於離線狀態...") || `${err?.message || err}`] *)
Definition friendly (err : error) (h : turn) : jsstring :=
  if negb (navigator_onLine h) then OFFLINE
  else match message err with
       | [] => Error_toString err
       | m => m
       end.

(** The [catch] block (lines 265-283); [i] counts the [uid()] calls the run
    has made before. *)
Definition sendText_catch (err : error) (h : turn) (i : nat) (st : state)
  : state * list effect :=
  let st := setThinking false st in
  let botErr := {| id := uid h i; role := assistant; text := JString (friendly err h);
                   ts := Date_now h i |} in
  (render (push botErr st), [Console_error (js "發送訊息錯誤:") err]).

(** [text ?? elInput?.value ?? ""]; [None] is a missing argument. *)
Definition effective_text (text : option jsstring) (st : state) : jsstring :=
  match text with
  | Some t => t
  | None => match elInput st with
            | Some el => input_value el
            | None => []
            end
  end.

Definition chat_body (content cid : jsstring) : value :=
  JObject [(js "text", JString content); (js "clientId", JString cid);
           (js "language", JString (js "繁體中文"))].

Definition chat_init (cid : jsstring) (b : option jsstring) : RequestInit :=
  {| method := js "POST";
     headers := [(js "Content-Type", js "application/json"); (js "X-Client-Id", cid)];
     body := b |}.

(** The [finally] block. *)
Definition sendText_finally (r : state * list effect) : state * list effect :=
  (with_isSending false (fst r), snd r).

(** [sendText(text)] up to its first [await] (lines 182-222). *)
Definition sendText (text : option jsstring) (h : turn) (st : state)
  : state * list effect :=
  if isSending st then (st, [Console_log (js "正在發送中，忽略重複請求")])
  else
    let content := trim (effective_text text st) in
    match content with
    | [] => (st, [])
    | _ =>
        let st := with_isSending true st in
        let userMsg := {| id := uid h 0; role := user; text := JString content;
                          ts := Date_now h 0 |} in
        let st := push userMsg st in
        let st :=
          with_elInput
            (option_map (fun el => {| input_value := []; input_disabled := input_disabled el |})
               (elInput st)) st in
        let st := render st in
        let st := setThinking true st in
        match JSON_stringify (chat_body content (clientId st)) 0 with
        | Return b =>
            (with_pending (pending st ++ [Await_fetch]) st,
             [Fetch (api (js "/api/chat")) (chat_init (clientId st) b)])
        | Throw err => sendText_finally (sendText_catch err h 1 st)
        end
    end.

Fixpoint replace_nth {A} (k : nat) (a : A) (l : list A) : list A :=
  match l, k with
  | [], _ => []
  | _ :: rest, O => a :: rest
  | x :: rest, S k => x :: replace_nth k a rest
  end.

Fixpoint remove_nth {A} (k : nat) (l : list A) : list A :=
  match l, k with
  | [], _ => []
  | _ :: rest, O => rest
  | x :: rest, S k => x :: remove_nth k rest
  end.

(** The [k]-th suspended call is over. *)
Definition done (k : nat) (r : state * list effect) : state * list effect :=
  sendText_finally (with_pending (remove_nth k (pending (fst r))) (fst r), snd r).

(** [sendText] from the settling of [fetch] to [await res.text()]. *)
Definition sendText_fetched (k : nat) (r : settled Response) (h : turn) (st : state)
  : state * list effect :=
  match r with
  | Fulfilled res => (with_pending (replace_nth k (Await_text res) (pending st)) st, [])
  | Rejected err => done k (sendText_catch err h 0 st)
  end.

(** Lines 227-234: [data] and what is logged. *)
Definition parse_body (t : ResponseText) : value * list effect :=
  match raw t with
  | [] => (JObject [], [])
  | _ =>
      match JSON_parse t with
      | Return data => (data, [])
      | Throw e =>
          (JObject [(js "errorRaw", JString (raw t))], [Console_error (js "JSON 解析失敗:") e])
      end
  end.

(** [(data && (data.error || data.body || data.message)) ?? raw ?? "unknown error"];
    [raw] is a string, so that the last operand is never taken. *)
Definition serverMsg (data : value) (raw : jsstring) : value :=
  let m :=
    if ToBoolean data then
      if ToBoolean (Get data (js "error")) then Get data (js "error")
      else if ToBoolean (Get data (js "body")) then Get data (js "body")
      else Get data (js "message")
    else data in
  if nullish m then JString raw else m.

(** Lines 236-250: the reply, or the error thrown. *)
Definition replyText (res : Response) (data : value) (raw : jsstring) : completion value :=
  if negb (ok res) then
    if (status res =? 502)%N || (status res =? 404)%N then
      Throw (new_Error (js "網路不穩定，請再試一次!"))
    else
      m <- ToString (serverMsg data raw) ;;
      Throw (new_Error (js "HTTP " ++ decimal (status res) ++ js " " ++ statusText res
                          ++ js " — " ++ m))
  else extractBotReply data raw.

(** [sendText] from the settling of [res.text()] to its end. *)
Definition sendText_read (k : nat) (res : Response) (r : settled ResponseText) (h : turn)
  (st : state) : state * list effect :=
  match r with
  | Rejected err => done k (sendText_catch err h 0 st)
  | Fulfilled t =>
      let (data, logged) := parse_body t in
      match replyText res data (raw t) with
      | Return reply =>
          let botMsg := {| id := uid h 0; role := assistant; text := reply;
                           ts := Date_now h 0 |} in
          done k (render (setThinking false (push botMsg st)), logged)
      | Throw err =>
          let (st, out) := sendText_catch err h 0 st in
          done k (st, logged ++ out)
      end
  end.

Inductive event :=
| Call_sendText (text : option jsstring)
| Fetch_settled (k : nat) (r : settled Response)
| Text_settled (k : nat) (r : settled ResponseText).

(** One run of code, from an event to the next suspension. *)
Definition step (st : state) (ev : event) (h : turn) : state * list effect :=
  match ev with
  | Call_sendText text => sendText text h st
  | Fetch_settled k r =>
      match nth_error (pending st) k with
      | Some Await_fetch => sendText_fetched k r h st
      | _ => (st, [])
      end
  | Text_settled k r =>
      match nth_error (pending st) k with
      | Some (Await_text res) => sendText_read k res r h st
      | _ => (st, [])
      end
  end.

Fixpoint run (st : state) (evs : list (event * turn)) : state * list effect :=
  match evs with
  | [] => (st, [])
  | (ev, h) :: rest =>
      let (st1, out1) := step st ev h in
      let (st2, out2) := run st1 rest in
      (st2, out1 ++ out2)
  end.

Definition WELCOME : jsstring :=
  js "歡迎來到臺北馬拉松智慧客服！
我是小幫手，隨時為您解答~ 有什麼問題可以為您解答的嗎?".

(** The state the script leaves when it has loaded (lines 31-56, 334-341):
    [stored] is what local storage holds for the client and [fresh] the
    identifier generated when it holds nothing. *)
Definition loaded (stored : option jsstring) (fresh : jsstring)
  (msgs : option (list Row)) (input : option HTMLInputElement)
  (btn : option HTMLButtonElement) (thinking : option ThinkingElement) (h : turn) : state :=
  render
    {| clientId := match stored with
                   | Some ((_ :: _) as c) => c
                   | _ => fresh
                   end;
       messages := [{| id := uid h 0; role := assistant; text := JString WELCOME;
                       ts := Date_now h 0 |}];
       isSending := false;
       elMessages := msgs; elInput := input; elBtnSend := btn; elThinking := thinking;
       pending := [] |}.

(* ================================================================== *)
(** * Vocabulary of the properties *)
(* ================================================================== *)

(** The value [extractBotReply] hands to [String], if it hands it any: the
    text (else message) field when it is not [null] (line 148), otherwise the
    error property when the object has a key other than clientId and that
    property is truthy (line 164). *)
Definition converted (data : value) : option value :=
  match data with
  | JString _ => None
  | _ =>
      if negb (ToBoolean data) || negb (type_tag_eqb (typeof data) T_object) then None
      else if negb (is_null (textContent_of data)) then Some (textContent_of data)
      else
        match List.length (meaningfulKeys data) with
        | O => None
        | _ =>
            if ToBoolean (Get data (js "error")) then Some (Get data (js "error"))
            else None
        end
  end.

(** The busy indicator is shown. *)
Definition busy (st : state) : bool :=
  match elThinking st with
  | Some el => negb (hidden el)
  | None => false
  end.

(** The requests among the effects of a run. *)
Fixpoint fetches (out : list effect) : list (jsstring * RequestInit) :=
  match out with
  | [] => []
  | Fetch url init :: rest => (url, init) :: fetches rest
  | _ :: rest => fetches rest
  end.

Definition assistant_messages (ms : list Message) : list Message :=
  filter (fun m => match role m with assistant => true | user => false end) ms.

(** The send flag is set exactly when one call is suspended; no more than one
    ever is. *)
Definition coherent (st : state) : Prop :=
  (isSending st = true /\ List.length (pending st) = 1)
  \/ (isSending st = false /\ pending st = []).

(** The states of a session: from a state with no send in flight, any events
    with any answers of the host. *)
Inductive reachable : state -> Prop :=
| reachable_idle st : isSending st = false -> pending st = [] -> reachable st
| reachable_step st ev h : reachable st -> reachable (fst (step st ev h)).

(** Calls of [sendText] (clicks, Enter keys) while something else goes on. *)
Definition calls (l : list (option jsstring * turn)) : list (event * turn) :=
  map (fun c => (Call_sendText (fst c), snd c)) l.

(** How the one request of a call ends. *)
Inductive outcome :=
| Network_failure (reason : error)
| Body_failure (res : Response) (reason : error)
| Answered (res : Response) (t : ResponseText).

(** The events from a call's request to its end, with further calls of
    [sendText] in between. *)
Definition settlement (o : outcome) (during1 during2 : list (option jsstring * turn))
  (h1 h2 : turn) : list (event * turn) :=
  match o with
  | Network_failure reason => calls during1 ++ [(Fetch_settled 0 (Rejected reason), h1)]
  | Body_failure res reason =>
      calls during1 ++ [(Fetch_settled 0 (Fulfilled res), h1)]
        ++ calls during2 ++ [(Text_settled 0 (Rejected reason), h2)]
  | Answered res t =>
      calls during1 ++ [(Fetch_settled 0 (Fulfilled res), h1)]
        ++ calls during2 ++ [(Text_settled 0 (Fulfilled t), h2)]
  end.

(** [fails st ev err]: at [st], the event [ev] resumes a call of [sendText]
    whose [try] block then throws [err]. *)
Inductive fails (st : state) : event -> error -> Prop :=
| fails_fetch k err :
    nth_error (pending st) k = Some Await_fetch ->
    fails st (Fetch_settled k (Rejected err)) err
| fails_text k res err :
    nth_error (pending st) k = Some (Await_text res) ->
    fails st (Text_settled k (Rejected err)) err
| fails_reply k res t err :
    nth_error (pending st) k = Some (Await_text res) ->
    replyText res (fst (parse_body t)) (raw t) = Throw err ->
    fails st (Text_settled k (Fulfilled t)) err.

(** The message a call ends with: the reply, or the friendly text of the
    error. *)
Definition closing_text (c : completion value) (h : turn) : value :=
  match c with
  | Return reply => reply
  | Throw err => JString (friendly err h)
  end.

Definition closing_message (c : completion value) (h : turn) : Message :=
  {| id := uid h 0; role := assistant; text := closing_text c h; ts := Date_now h 0 |}.

(** What ends a suspended call, and with what completion of its [try]
    block. *)
Definition settles (s : suspended) (ev : event) : option (completion value) :=
  match s, ev with
  | Await_fetch, Fetch_settled _ (Rejected err) => Some (Throw err)
  | Await_text _, Text_settled _ (Rejected err) => Some (Throw err)
  | Await_text res, Text_settled _ (Fulfilled t) =>
      Some (replyText res (fst (parse_body t)) (raw t))
  | _, _ => None
  end.

Definition resumed (ev : event) : option nat :=
  match ev with
  | Call_sendText _ => None
  | Fetch_settled k _ | Text_settled k _ => Some k
  end.

(** The completion of the [try] block an outcome leads to, and the run in
    which the call ends. *)
Definition outcome_completion (o : outcome) : completion value :=
  match o with
  | Network_failure reason | Body_failure _ reason => Throw reason
  | Answered res t => replyText res (fst (parse_body t)) (raw t)
  end.

Definition outcome_turn (o : outcome) (h1 h2 : turn) : turn :=
  match o with
  | Network_failure _ => h1
  | _ => h2
  end.

(** The text [JSON.stringify] gives for the body of the request. *)
Definition chat_body_text (content cid : jsstring) : jsstring :=
  (123 :: ((QuoteJSONString (js "text") ++ js ":" ++ QuoteJSONString content)
             ++ js "," ++ (QuoteJSONString (js "clientId") ++ js ":" ++ QuoteJSONString cid)
             ++ js "," ++ (QuoteJSONString (js "language") ++ js ":"
                             ++ QuoteJSONString (js "繁體中文")))
     ++ [125])%N.

(** A host, and the page as the script leaves it when it has loaded with all
    four elements present, [cid] stored for the client and [typed] in the
    input. *)
Definition host (online : bool) : turn :=
  {| uid := fun i => js "k" ++ decimal (N.of_nat i); Date_now := fun _ => 1700000000000%Z;
     navigator_onLine := online |}.

Definition page (cid : jsstring) (typed : jsstring) : state :=
  loaded (Some cid) (js "1700000000000-k") (Some [])
    (Some {| input_value := typed; input_disabled := false |})
    (Some {| button_disabled := false |}) (Some {| hidden := true |}) (host true).

(* ================================================================== *)
(** * The rest of the script: client identifier and event binding *)
(* ================================================================== *)

Definition CID_KEY : jsstring := js "fourleaf_client_id".

(** What local storage holds under [CID_KEY]: [None] is the [null] that
    [getItem] gives for a missing key. *)
Definition storage := option jsstring.

(** What the host gives when an identifier is generated:
    [crypto.randomUUID()] ([None] where the function is missing),
    [Date.now()] and [Math.random().toString(36).slice(2)]. *)
Record entropy := { randomUUID : option jsstring; timestamp : Z; random36 : jsstring }.

(** [(crypto.randomUUID && crypto.randomUUID()) ||
     `${Date.now()}-${Math.random().toString(36).slice(2)}`] *)
Definition new_clientId (e : entropy) : jsstring :=
  match randomUUID e with
  | Some ((_ :: _) as u) => u
  | _ => decimalZ (timestamp e) ++ js "-" ++ random36 e
  end.

(** Lines 31-37: the identifier and what storage holds afterwards. *)
Definition clientId_init (stored : storage) (e : entropy) : jsstring * storage :=
  match stored with
  | Some ((_ :: _) as c) => (c, stored)
  | _ => let c := new_clientId e in (c, Some c)
  end.

(** The listeners the script has added to the click of [#btnSend] and to the
    keydown of [#txtInput] (each call of [addEventListener] is given a new
    function, so that it adds one), and the flag of lines 294-318. *)
Record bindings := { eventsAttached : bool; click_listeners : nat;
                     keydown_listeners : nat }.

Definition unbound : bindings :=
  {| eventsAttached := false; click_listeners := 0; keydown_listeners := 0 |}.

Definition attachEvents (st : state) (b : bindings) : bindings * list effect :=
  if eventsAttached b then (b, [Console_log (js "事件已經綁定，跳過重複綁定")])
  else
    ({| eventsAttached := true;
        click_listeners := match elBtnSend st with
                           | Some _ => S (click_listeners b)
                           | None => click_listeners b
                           end;
        keydown_listeners := match elInput st with
                             | Some _ => S (keydown_listeners b)
                             | None => keydown_listeners b
                             end |},
     [Console_log (js "事件綁定完成")]).

(** What one listener does: whether it calls [preventDefault], and the call
    of [sendText] it makes. *)
Definition on_click (h : turn) (st : state) : bool * (state * list effect) :=
  (true, sendText None h st).

Definition on_keydown (key : jsstring) (shiftKey : bool) (h : turn) (st : state)
  : bool * (state * list effect) :=
  if jsstring_eqb key (js "Enter") && negb shiftKey then (true, sendText None h st)
  else (false, (st, [])).

(** The listeners of an event run one after the other, each in its own run
    of code. *)
Fixpoint dispatch (listener : turn -> state -> bool * (state * list effect))
  (hs : list turn) (st : state) : bool * (state * list effect) :=
  match hs with
  | [] => (false, (st, []))
  | h :: rest =>
      let '(p1, (st1, out1)) := listener h st in
      let '(p2, (st2, out2)) := dispatch listener rest st1 in
      (p1 || p2, (st2, out1 ++ out2))
  end.

(** A click on the button, and a key pressed in the input; [hs] holds the
    answers of the host for each listener. *)
Definition click (b : bindings) (hs : list turn) (st : state)
  : bool * (state * list effect) :=
  dispatch on_click (firstn (click_listeners b) hs) st.

Definition keydown (b : bindings) (key : jsstring) (shiftKey : bool) (hs : list turn)
  (st : state) : bool * (state * list effect) :=
  dispatch (on_keydown key shiftKey) (firstn (keydown_listeners b) hs) st.

(** ** Vocabulary of the further properties *)

(** What one run of code does to the session: nothing, a note of the response
    that arrived, the start of a send, or the end of one. *)
Inductive transition (st : state) : state -> list effect -> Prop :=
| transition_none out : fetches out = [] -> transition st st out
| transition_head p : transition st (with_pending p st) []
| transition_sent u p out :
    isSending st = false -> role u = user -> List.length (fetches out) = 1 ->
    transition st
      (with_pending p
         (setThinking true
            (render
               (with_elInput
                  (option_map (fun el => {| input_value := [];
                                            input_disabled := input_disabled el |})
                     (elInput st))
                  (push u (with_isSending true st))))))
      out
| transition_ended a p out :
    role a = assistant -> fetches out = [] -> pending st <> [] ->
    transition st
      (with_isSending false (with_pending p (render (push a (setThinking false st)))))
      out.

(** The message list is what the page shows. *)
Definition in_sync (st : state) : Prop :=
  match elMessages st with
  | Some rows => rows = map render_row (messages st)
  | None => True
  end.

(** Where the page has a busy indicator: it is shown, and the input and the
    button are disabled, exactly when [b] holds. *)
Definition locked (b : bool) (st : state) : Prop :=
  match elThinking st with
  | None => True
  | Some el =>
      hidden el = negb b
      /\ match elInput st with
         | Some el => input_disabled el = b
         | None => True
         end
      /\ match elBtnSend st with
         | Some el => button_disabled el = b
         | None => True
         end
  end.

(** The input, where there is one, holds nothing. *)
Definition input_empty (st : state) : Prop :=
  match elInput st with
  | Some el => input_value el = []
  | None => True
  end.

(** The events that end no call: a call of [sendText], and the arrival of a
    response whose body is still to be read. *)
Definition quiet (ev : event) : bool :=
  match ev with
  | Call_sendText _ => true
  | Fetch_settled _ (Fulfilled _) => true
  | _ => false
  end.

(** [n] exchanges: a user message and the assistant message that answers
    it. *)
Fixpoint exchanges (n : nat) : list Role :=
  match n with
  | O => []
  | S n => user :: assistant :: exchanges n
  end.

Definition open_exchange (st : state) : list Role :=
  if isSending st then [user] else [].

(* ================================================================== *)
(** * Properties of the strings and values *)
(* ================================================================== *)

Lemma jsstring_eqb_eq (a b : jsstring) : jsstring_eqb a b = true <-> a = b.
Proof.
  unfold jsstring_eqb. destruct (list_eq_dec N.eq_dec a b); split; congruence.
Qed.

Lemma jsstring_eqb_refl (a : jsstring) : jsstring_eqb a a = true.
Proof. apply jsstring_eqb_eq. reflexivity. Qed.

Example js_literal : js "a請!" = [97; 0x8ACB; 33]%N.
Proof. reflexivity. Qed.

Example Number_toString_examples :
  map Number_toString
    [Finite false 42 2; Finite true 5 0; Finite false 125 1; Finite false 1 (-5);
     Finite false 1 (-6); Finite false 1 22; Finite false 15 21; Finite false 123 22]
  = map js ["42"; "-0.5"; "1.25"; "0.000001"; "1e-7"; "1e+21";
            "150000000000000000000"; "1.23e+21"]%string.
Proof. reflexivity. Qed.

Example ToString_array :
  ToString (JArray [JNumber (Finite false 1 1); JNull; JArray [JBool true; JString (js "x")]])
  = Return (js "1,,true,x").
Proof. reflexivity. Qed.

Example JSON_stringify_compact :
  JSON_stringify (JObject [(js "a", JArray [JNull; JUndefined; JBool true]);
                           (js "b", JUndefined); (js "c", JObject [])]) 0
  = Return (Some ([123; 34; 97; 34] ++ js ":[null,null,true]," ++ [34; 99; 34] ++ js ":{}}")%N).
Proof. reflexivity. Qed.

Example JSON_stringify_indented :
  JSON_stringify (JObject [(js "text", JNull); (js "n", JArray [JNumber (Finite false 7 1)])]) 2
  = Return (Some ([123; 10] ++ js "  " ++ [34] ++ js "text" ++ [34] ++ js ": null," ++ [10]
                    ++ js "  " ++ [34; 110; 34] ++ js ": [" ++ [10] ++ js "    7" ++ [10]
                    ++ js "  ]" ++ [10; 125])%N).
Proof. reflexivity. Qed.

Example extractBotReply_text_example :
  extractBotReply (JObject [(js "text", JString (js "  hi  "))]) [] = Return (JString (js "hi")).
Proof. reflexivity. Qed.

Example extractBotReply_message_example :
  extractBotReply (JObject [(js "message", JString (js "ok"))]) [] = Return (JString (js "ok")).
Proof. reflexivity. Qed.

Example extractBotReply_clientId_only_example :
  extractBotReply (JObject [(js "clientId", JString (js "x"))]) []
  = Return (JString NETWORK_UNSTABLE)
  /\ extractBotReply (JObject []) [] = Return (JString NETWORK_UNSTABLE).
Proof. split; reflexivity. Qed.

Example extractBotReply_error_example :
  extractBotReply (JObject [(js "error", JString (js "bad input"))]) []
  = Return (JString (js "bad input")).
Proof. reflexivity. Qed.

Example extractBotReply_errorRaw_example :
  extractBotReply (JObject [(js "errorRaw", JString (js "<html>"))]) []
  = Return (JString MALFORMED_RESPONSE).
Proof. reflexivity. Qed.

Example extractBotReply_bigint_example :
  extractBotReply (JObject [(js "n", JBigInt 10)]) [] = Return (JString UNEXPECTED_RESPONSE).
Proof. reflexivity. Qed.

Example trim_example :
  trim ([32; 0xA0; 0x3000] ++ js "a b" ++ [10; 0xFEFF; 9])%N = js "a b".
Proof. reflexivity. Qed.

Example replyText_500 :
  replyText {| status := 500; statusText := js "Internal Server Error" |}
    (JObject [(js "message", JString (js "boom"))]) (js "raw")
  = Throw (new_Error (js "HTTP 500 Internal Server Error — boom"))
  /\ replyText {| status := 500; statusText := js "Internal Server Error" |}
       JNull (js "null")
     = Throw (new_Error (js "HTTP 500 Internal Server Error — null")).
Proof. split; vm_compute; reflexivity. Qed.

Example loaded_clientId :
  clientId (loaded None (js "fresh") None None None None (host true)) = js "fresh"
  /\ clientId (loaded (Some (js "abc")) (js "fresh") None None None None (host true))
     = js "abc".
Proof. split; reflexivity. Qed.

(** An array or an object is serialised to a text or not at all, never to
    [undefined]. *)
Lemma SerializeJSONProperty_object (gap indent : jsstring) (v : value) :
  typeof v = T_object -> v <> JNull ->
  SerializeJSONProperty gap indent v <> Return None.
Proof.
  destruct v; simpl; try discriminate; try congruence; intros _ _;
    match goal with |- context [bind ?c _] => destruct c end; simpl; discriminate.
Qed.

(** The text field of an object decides the reply whenever it is not
    [null]. *)
Lemma extractBotReply_text (ps : list (jsstring * value)) (v : value) (raw : jsstring) :
  own ps (js "text") = Some v -> v <> JNull ->
  extractBotReply (JObject ps) raw
  = (processed <- ToString v ;; Return (JString (or_rephrase (trim processed)))).
Proof.
  intros Hown Hv. unfold extractBotReply, textContent_of. simpl.
  rewrite Hown. destruct v; try reflexivity. congruence.
Qed.

Lemma HasProperty_own (ps : list (jsstring * value)) (k : jsstring) :
  HasProperty (JObject ps) k = match own ps k with Some _ => true | None => false end.
Proof. reflexivity. Qed.

Lemma Get_own (ps : list (jsstring * value)) (k : jsstring) (v : value) :
  own ps k = Some v -> Get (JObject ps) k = v.
Proof. intros H. simpl. rewrite H. reflexivity. Qed.

(** When [textContent] stays [null], rules 5 to 8 decide. *)
Lemma extractBotReply_no_textContent (ps : list (jsstring * value)) (raw : jsstring) :
  textContent_of (JObject ps) = JNull ->
  extractBotReply (JObject ps) raw
  = match List.length (meaningfulKeys (JObject ps)) with
    | O => Return (JString NETWORK_UNSTABLE)
    | _ =>
        if ToBoolean (Get (JObject ps) (js "error")) then
          s <- ToString (Get (JObject ps) (js "error")) ;; Return (JString s)
        else if ToBoolean (Get (JObject ps) (js "errorRaw")) then
          Return (JString MALFORMED_RESPONSE)
        else
          match JSON_stringify (JObject ps) 2 with
          | Return (Some s) => Return (JString s)
          | Return None => Return JUndefined
          | Throw _ => Return (JString UNEXPECTED_RESPONSE)
          end
    end.
Proof.
  intros Hnull. unfold extractBotReply. rewrite Hnull. reflexivity.
Qed.

Lemma textContent_of_absent (ps : list (jsstring * value)) :
  own ps (js "text") = None -> own ps (js "message") = None ->
  textContent_of (JObject ps) = JNull.
Proof.
  intros Ht Hm. unfold textContent_of. rewrite !HasProperty_own, Ht, Hm. reflexivity.
Qed.

(** Rule 8 gives a string whether the serialisation returns or throws. *)
Lemma JSON_dump_string (v : value) :
  typeof v = T_object -> v <> JNull ->
  exists s,
    match JSON_stringify v 2 with
    | Return (Some s) => Return (JString s)
    | Return None => Return JUndefined
    | Throw _ => Return (JString UNEXPECTED_RESPONSE)
    end = Return (JString s).
Proof.
  intros Ht Hn.
  pose proof (SerializeJSONProperty_object (repeat 32%N (Nat.min 2 10)) [] v Ht Hn) as Hs.
  unfold JSON_stringify.
  destruct (SerializeJSONProperty (repeat 32%N (Nat.min 2 10)) [] v)
    as [[s|]|e]; [eexists; reflexivity | exfalso; apply Hs; reflexivity
                 | eexists; reflexivity].
Qed.

(* ================================================================== *)
(** * Properties of extractBotReply *)
(* ================================================================== *)

(** C4 (the code departs from it): an object whose text field is [null] does
    not get [String(null)] trimmed, the text [null], as its reply.  The
    field is found, but [null] is also what [textContent] holds when no field
    was found, so that the object is taken for one without text and message
    fields and its JSON text is the reply. *)
Theorem extractBotReply_text_null :
  let data := JObject [(js "text", JNull)] in
  own [(js "text", JNull)] (js "text") = Some JNull
  /\ extractBotReply data []
     = Return (JString ([123; 10; 32; 32; 34] ++ js "text" ++ [34] ++ js ": null"
                          ++ [10; 125])%N)
  /\ extractBotReply data []
     <> (processed <- ToString JNull ;; Return (JString (or_rephrase (trim processed)))).
Proof. repeat split. vm_compute. discriminate. Qed.

(** With a text field that is [null], a message field is not read either. *)
Lemma extractBotReply_text_null_message :
  extractBotReply (JObject [(js "text", JNull); (js "message", JString (js "hi"))]) []
  <> Return (JString (js "hi"))
  /\ extractBotReply (JObject [(js "text", JNull); (js "message", JString (js "hi"))]) []
     <> Return (JString (js "null")).
Proof. split; vm_compute; discriminate. Qed.

(** The text field wins over a message field. *)
Lemma extractBotReply_text_over_message (ps : list (jsstring * value)) (v m : value)
  (raw : jsstring) :
  own ps (js "text") = Some v -> v <> JNull -> own ps (js "message") = Some m ->
  extractBotReply (JObject ps) raw
  = (processed <- ToString v ;; Return (JString (or_rephrase (trim processed)))).
Proof. intros Hv Hn _. apply extractBotReply_text; assumption. Qed.

(** C5 (as the spec has it) fails: [{error: 0}] has an error property, and
    the reply is the JSON text of the object, not [String(0)]. *)
Lemma extractBotReply_error_zero :
  let ps := [(js "error", JNumber (Zero false))] in
  own ps (js "text") = None /\ own ps (js "message") = None
  /\ meaningfulKeys (JObject ps) = [js "error"]
  /\ own ps (js "error") = Some (JNumber (Zero false))
  /\ ToString (JNumber (Zero false)) = Return (js "0")
  /\ extractBotReply (JObject ps) []
     = Return (JString ([123; 10; 32; 32; 34] ++ js "error" ++ [34] ++ js ": 0"
                          ++ [10; 125])%N)
  /\ extractBotReply (JObject ps) [] <> Return (JString (js "0")).
Proof. repeat split. vm_compute. discriminate. Qed.

(** C5, amended: for every object without text and message fields and with a
    key other than clientId, if its error property is truthy then the call
    ends as [String(data.error)] does: it returns that string as it is (and
    throws what the conversion throws). *)
Theorem extractBotReply_error_truthy (ps : list (jsstring * value)) (raw : jsstring) :
  own ps (js "text") = None -> own ps (js "message") = None ->
  meaningfulKeys (JObject ps) <> [] ->
  ToBoolean (Get (JObject ps) (js "error")) = true ->
  extractBotReply (JObject ps) raw
  = (s <- ToString (Get (JObject ps) (js "error")) ;; Return (JString s)).
Proof.
  intros Ht Hm Hk He.
  rewrite extractBotReply_no_textContent by (apply textContent_of_absent; assumption).
  destruct (meaningfulKeys (JObject ps)); [congruence|].
  cbn [List.length]. rewrite He. reflexivity.
Qed.

Lemma extractBotReply_error_truthy_witness :
  let ps := [(js "error", JString (js "bad input")); (js "clientId", JString (js "x"))] in
  (own ps (js "text") = None /\ own ps (js "message") = None
   /\ meaningfulKeys (JObject ps) <> []
   /\ ToBoolean (Get (JObject ps) (js "error")) = true)
  /\ extractBotReply (JObject ps) (js "{}")
     = (s <- ToString (Get (JObject ps) (js "error")) ;; Return (JString s))
  /\ extractBotReply (JObject ps) (js "{}") = Return (JString (js "bad input")).
Proof.
  intros ps. split; [|split].
  - repeat split. vm_compute. discriminate.
  - apply (extractBotReply_error_truthy ps (js "{}")).
    + reflexivity.
    + reflexivity.
    + vm_compute. discriminate.
    + reflexivity.
  - reflexivity.
Defined.

(** C8 (as stated) fails: [String] throws on an object that has an own
    property [toString], and [extractBotReply] lets the error out. *)
Lemma extractBotReply_throws :
  extractBotReply (JObject [(js "text", JObject [(js "toString", JNull)])]) []
  = Throw cannot_convert
  /\ ~ (exists s, extractBotReply (JObject [(js "text", JObject [(js "toString", JNull)])]) []
                  = Return (JString s)).
Proof.
  split; [reflexivity|]. intros [s Hs]. vm_compute in Hs. discriminate.
Qed.

(** Rules 1 and 2: what is not an object. *)
Lemma extractBotReply_primitive (data : value) (raw : jsstring) :
  typeof data <> T_object \/ data = JNull ->
  exists s, extractBotReply data raw = Return (JString s).
Proof.
  intros [H | ->]; [|eexists; reflexivity].
  destruct data; try (exfalso; apply H; reflexivity);
    unfold extractBotReply; simpl; rewrite ?orb_true_r; eexists; reflexivity.
Qed.

(** An array has no text, message or error property: rules 5 and 8. *)
Lemma extractBotReply_array (l : list value) (raw : jsstring) :
  exists s, extractBotReply (JArray l) raw = Return (JString s).
Proof.
  unfold extractBotReply, textContent_of. cbn [HasProperty Get ToBoolean typeof
    type_tag_eqb negb orb is_null].
  destruct (List.length (meaningfulKeys (JArray l))); [eexists; reflexivity|].
  pose proof (@SerializeJSONProperty_object (repeat 32%N (Nat.min 2 10)) [] (JArray l)
                eq_refl) as Hs.
  unfold JSON_stringify.
  destruct (SerializeJSONProperty (repeat 32%N (Nat.min 2 10)) [] (JArray l))
    as [[s|]|e]; [eexists; reflexivity | exfalso; apply Hs; congruence
                 | eexists; reflexivity].
Qed.

(** An object whose text (else message) field is there and not [null]. *)
Lemma extractBotReply_textContent (ps : list (jsstring * value)) (raw : jsstring) :
  is_null (textContent_of (JObject ps)) = false ->
  extractBotReply (JObject ps) raw
  = (processed <- ToString (textContent_of (JObject ps)) ;;
     Return (JString (or_rephrase (trim processed)))).
Proof.
  intros Hnull. unfold extractBotReply. rewrite Hnull. reflexivity.
Qed.

Lemma is_null_true (v : value) : is_null v = true -> v = JNull.
Proof. destruct v; try discriminate; reflexivity. Qed.

(** C8, amended: [extractBotReply] returns a string and throws nothing for
    every [data] and [raw], provided the one conversion by [String] it makes,
    if it makes one, returns: that of the text (else message) field that is
    not [null], otherwise that of a truthy error property of an object with a
    key other than clientId.  Nothing else in it throws: a failing JSON
    serialisation is caught and answered with a fixed text. *)
Theorem extractBotReply_returns_string (data : value) (raw : jsstring) :
  (forall v, converted data = Some v -> exists s, ToString v = Return s) ->
  exists s, extractBotReply data raw = Return (JString s).
Proof.
  intros H.
  destruct data as [ | | b | x | z | s | l | ps];
    try (apply extractBotReply_primitive; (left; discriminate) || (right; reflexivity)).
  - apply extractBotReply_array.
  - unfold converted in H. cbn [ToBoolean typeof type_tag_eqb negb orb] in H.
    destruct (is_null (textContent_of (JObject ps))) eqn:Hnull; cbn [negb] in H.
    + rewrite extractBotReply_no_textContent by (apply is_null_true; exact Hnull).
      destruct (List.length (meaningfulKeys (JObject ps))); [eexists; reflexivity|].
      destruct (ToBoolean (Get (JObject ps) (js "error"))).
      { destruct (H _ eq_refl) as [s Hs]. rewrite Hs. eexists; reflexivity. }
      destruct (ToBoolean (Get (JObject ps) (js "errorRaw"))); [eexists; reflexivity|].
      apply JSON_dump_string; [reflexivity | discriminate].
    + destruct (H _ eq_refl) as [s Hs].
      rewrite extractBotReply_textContent, Hs by assumption. eexists; reflexivity.
Qed.

Lemma extractBotReply_returns_string_witness :
  let data := JObject [(js "text", JString (js " hi "));
                       (js "error", JObject [(js "toString", JNull)]);
                       (js "n", JBigInt 10)] in
  (forall v, converted data = Some v -> exists s, ToString v = Return s)
  /\ converted data = Some (JString (js " hi "))
  /\ exists s, extractBotReply data (js "{}") = Return (JString s).
Proof.
  intros data.
  assert (H : forall v, converted data = Some v -> exists s, ToString v = Return s).
  { intros v Hv. vm_compute in Hv. injection Hv as <-. eexists. reflexivity. }
  split; [exact H|]. split; [reflexivity|].
  exact (extractBotReply_returns_string data (js "{}") H).
Defined.

(** When the conversion throws, the call throws the same error; without a
    conversion it returns a string. *)
Lemma extractBotReply_throws_as_String (data : value) (raw : jsstring) :
  match converted data with
  | Some v => forall e, ToString v = Throw e -> extractBotReply data raw = Throw e
  | None => exists s, extractBotReply data raw = Return (JString s)
  end.
Proof.
  destruct data as [ | | b | x | z | s | l | ps];
    try (unfold converted; cbn [typeof type_tag_eqb negb]; rewrite ?orb_true_r;
         apply extractBotReply_primitive; (left; discriminate) || (right; reflexivity)).
  - unfold converted. cbn [ToBoolean typeof type_tag_eqb negb orb textContent_of
      HasProperty is_null Get].
    destruct (List.length (meaningfulKeys (JArray l))); apply extractBotReply_array.
  - unfold converted. cbn [ToBoolean typeof type_tag_eqb negb orb].
    destruct (is_null (textContent_of (JObject ps))) eqn:Hnull; cbn [negb].
    + rewrite extractBotReply_no_textContent by (apply is_null_true; exact Hnull).
      destruct (List.length (meaningfulKeys (JObject ps))); [eexists; reflexivity|].
      destruct (ToBoolean (Get (JObject ps) (js "error"))).
      { intros e He. rewrite He. reflexivity. }
      destruct (ToBoolean (Get (JObject ps) (js "errorRaw"))); [eexists; reflexivity|].
      apply JSON_dump_string; [reflexivity | discriminate].
    + intros e He. rewrite extractBotReply_textContent, He by assumption. reflexivity.
Qed.

(** C9: the second argument has no part in the result: with the same [data],
    any two [raw] give the same completion. *)
Theorem extractBotReply_ignores_raw (data : value) (raw1 raw2 : jsstring) :
  extractBotReply data raw1 = extractBotReply data raw2.
Proof. reflexivity. Qed.

(* ================================================================== *)
(** * Properties of the send lifecycle *)
(* ================================================================== *)

(** What [render], [setThinking] and the [catch] block leave alone. *)
Lemma render_frame (st : state) :
  messages (render st) = messages st /\ isSending (render st) = isSending st
  /\ pending (render st) = pending st /\ clientId (render st) = clientId st
  /\ elThinking (render st) = elThinking st /\ elInput (render st) = elInput st
  /\ elBtnSend (render st) = elBtnSend st.
Proof. unfold render. destruct (elMessages st); repeat split. Qed.

Lemma setThinking_frame (on : bool) (st : state) :
  messages (setThinking on st) = messages st
  /\ isSending (setThinking on st) = isSending st
  /\ pending (setThinking on st) = pending st
  /\ clientId (setThinking on st) = clientId st
  /\ elMessages (setThinking on st) = elMessages st.
Proof. unfold setThinking. destruct (elThinking st), on; repeat split. Qed.

Lemma setThinking_off_busy (st : state) : busy (setThinking false st) = false.
Proof.
  unfold setThinking, busy. destruct (elThinking st) eqn:H; simpl; [reflexivity|].
  rewrite H. reflexivity.
Qed.

Lemma setThinking_off_enables (st : state) :
  elThinking st <> None ->
  elInput (setThinking false st)
  = option_map (fun el => {| input_value := input_value el; input_disabled := false |})
      (elInput st)
  /\ elBtnSend (setThinking false st)
     = option_map (fun _ => {| button_disabled := false |}) (elBtnSend st).
Proof.
  unfold setThinking. destruct (elThinking st); [split; reflexivity | congruence].
Qed.

Lemma busy_render (st : state) : busy (render st) = busy st.
Proof. unfold busy. destruct (render_frame st) as (_ & _ & _ & _ & -> & _). reflexivity. Qed.

Lemma busy_push (m : Message) (st : state) : busy (push m st) = busy st.
Proof. reflexivity. Qed.

(** The [catch] block appends one assistant message, clears the busy
    indicator and leaves the flag and the suspended calls alone. *)
Lemma sendText_catch_spec (err : error) (h : turn) (i : nat) (st : state) :
  let st' := fst (sendText_catch err h i st) in
  messages st'
  = messages st
      ++ [{| id := uid h i; role := assistant;
             text := JString (friendly err h);
             ts := Date_now h i |}]
  /\ isSending st' = isSending st /\ pending st' = pending st
  /\ clientId st' = clientId st /\ busy st' = false
  /\ fetches (snd (sendText_catch err h i st)) = [].
Proof.
  unfold sendText_catch. cbn [fst snd fetches].
  set (m := {| id := uid h i |}).
  destruct (render_frame (push m (setThinking false st))) as (-> & -> & -> & -> & _).
  destruct (setThinking_frame false st) as (Hm & Hs & Hp & Hc & _).
  rewrite busy_render, busy_push, setThinking_off_busy.
  cbn [push with_messages messages isSending pending clientId].
  rewrite Hm, Hs, Hp, Hc. repeat split.
Qed.

(** ** The two early returns *)

Lemma sendText_in_flight (text : option jsstring) (h : turn) (st : state) :
  isSending st = true ->
  sendText text h st = (st, [Console_log (js "正在發送中，忽略重複請求")]).
Proof. intros H. unfold sendText. rewrite H. reflexivity. Qed.

Lemma sendText_empty (text : option jsstring) (h : turn) (st : state) :
  isSending st = false -> trim (effective_text text st) = [] ->
  sendText text h st = (st, []).
Proof. intros H E. unfold sendText. rewrite H, E. reflexivity. Qed.

(** ** The request *)

Lemma JSON_stringify_chat_body (content cid : jsstring) :
  JSON_stringify (chat_body content cid) 0 = Return (Some (chat_body_text content cid)).
Proof. reflexivity. Qed.

(** A call with no send in flight and some text issues the request and is
    suspended. *)
Lemma sendText_sends (text : option jsstring) (h : turn) (st : state) :
  isSending st = false -> trim (effective_text text st) <> [] ->
  let content := trim (effective_text text st) in
  let st' := fst (sendText text h st) in
  snd (sendText text h st)
  = [Fetch (api (js "/api/chat"))
       (chat_init (clientId st) (Some (chat_body_text content (clientId st))))]
  /\ messages st'
     = messages st ++ [{| id := uid h 0; role := user; text := JString content;
                          ts := Date_now h 0 |}]
  /\ isSending st' = true
  /\ pending st' = pending st ++ [Await_fetch]
  /\ clientId st' = clientId st
  /\ elInput st'
     = option_map (fun el => {| input_value := [];
                                input_disabled := match elThinking st with
                                                  | Some _ => true
                                                  | None => input_disabled el
                                                  end |}) (elInput st)
  /\ busy st' = match elThinking st with Some _ => true | None => false end.
Proof.
  intros H E. cbv zeta. unfold sendText. rewrite H.
  remember (trim (effective_text text st)) as content eqn:Hc.
  destruct content as [|c cs]; [congruence|].
  rewrite JSON_stringify_chat_body. cbn [fst snd].
  unfold setThinking, render, push, busy.
  destruct st as [cid ms sending rows input btn thinking pend]. simpl in *.
  destruct rows, thinking, input; simpl; repeat split.
Qed.

(** ** The end of a call *)

Lemma done_spec (k : nat) (r : state * list effect) :
  messages (fst (done k r)) = messages (fst r)
  /\ isSending (fst (done k r)) = false
  /\ pending (fst (done k r)) = remove_nth k (pending (fst r))
  /\ clientId (fst (done k r)) = clientId (fst r)
  /\ busy (fst (done k r)) = busy (fst r)
  /\ snd (done k r) = snd r.
Proof. repeat split. Qed.

(** A call that ends appends exactly its closing message, clears the busy
    indicator, resets the flag and issues no request. *)
Lemma step_settles (st : state) (ev : event) (h : turn) (k : nat) (s : suspended)
  (c : completion value) :
  resumed ev = Some k -> nth_error (pending st) k = Some s -> settles s ev = Some c ->
  let st' := fst (step st ev h) in
  messages st' = messages st ++ [closing_message c h]
  /\ isSending st' = false
  /\ pending st' = remove_nth k (pending st)
  /\ clientId st' = clientId st
  /\ busy st' = false
  /\ fetches (snd (step st ev h)) = [].
Proof.
  intros Hk Hn Hs. cbv zeta.
  destruct ev as [text | k' r | k' r]; simpl in Hk; [discriminate| |];
    injection Hk as ->; unfold step; rewrite Hn;
    destruct s as [|res]; destruct r as [a|err]; simpl in Hs; try discriminate;
    injection Hs as <-.
  - (* fetch rejected *)
    unfold sendText_fetched.
    destruct (done_spec k (sendText_catch err h 0 st)) as (-> & -> & -> & -> & -> & ->).
    destruct (sendText_catch_spec err h 0 st) as (-> & _ & -> & -> & -> & ->).
    repeat split.
  - (* body read *)
    unfold sendText_read. destruct (parse_body a) as [data logged] eqn:Hp. cbn [fst].
    destruct (replyText res data (raw a)) as [reply|err].
    + match goal with |- context [done k ?r] =>
        destruct (done_spec k r) as (-> & -> & -> & -> & -> & ->) end.
      cbn [fst snd].
      destruct (render_frame (setThinking false
                 (push {| id := uid h 0; role := assistant; text := reply;
                          ts := Date_now h 0 |} st))) as (-> & _ & -> & -> & _).
      rewrite busy_render, setThinking_off_busy.
      match goal with |- context [setThinking false ?x] =>
        destruct (setThinking_frame false x) as (-> & _ & -> & -> & _) end.
      repeat split.
      unfold parse_body in Hp. destruct (raw a); [injection Hp as <- <-; reflexivity|].
      destruct (JSON_parse a); injection Hp as <- <-; reflexivity.
    + destruct (sendText_catch err h 0 st) as [st1 out] eqn:Hc.
      match goal with |- context [done k ?r] =>
        destruct (done_spec k r) as (-> & -> & -> & -> & -> & ->) end.
      cbn [fst snd].
      pose proof (sendText_catch_spec err h 0 st) as Hspec. rewrite Hc in Hspec.
      cbn [fst snd] in Hspec. destruct Hspec as (-> & _ & -> & -> & -> & Hf).
      repeat split.
      unfold parse_body in Hp. unfold sendText_catch in Hc. injection Hc as _ <-.
      destruct (raw a); [injection Hp as <- <-; reflexivity|].
      destruct (JSON_parse a); injection Hp as <- <-; reflexivity.
  - (* body rejected *)
    unfold sendText_read.
    destruct (done_spec k (sendText_catch err h 0 st)) as (-> & -> & -> & -> & -> & ->).
    destruct (sendText_catch_spec err h 0 st) as (-> & _ & -> & -> & -> & ->).
    repeat split.
Qed.

(** ** One send at a time *)

Lemma coherent_idle (st : state) : coherent st -> isSending st = false -> pending st = [].
Proof. intros [[H _]|[_ H]] Hs; [congruence | exact H]. Qed.

Lemma coherent_one (st : state) (k : nat) (s : suspended) :
  coherent st -> nth_error (pending st) k = Some s ->
  isSending st = true /\ k = 0 /\ pending st = [s].
Proof.
  intros [[Hs Hl]|[_ Hp]] Hn.
  - destruct (pending st) as [|x [|y l]]; try discriminate.
    destruct k as [|k]; [injection Hn as ->; auto|].
    destruct k; discriminate.
  - rewrite Hp in Hn. destruct k; discriminate.
Qed.

Lemma step_coherent (st : state) (ev : event) (h : turn) :
  coherent st -> coherent (fst (step st ev h)).
Proof.
  intros Hc. destruct ev as [text | k r | k r].
  - (* a call *)
    cbn [step]. destruct (isSending st) eqn:Hs.
    { rewrite sendText_in_flight by assumption. exact Hc. }
    destruct (trim (effective_text text st)) as [|c cs] eqn:Ht.
    { rewrite sendText_empty by assumption. exact Hc. }
    assert (Hne : trim (effective_text text st) <> []) by congruence.
    destruct (sendText_sends text h st Hs Hne) as (_ & _ & Hs' & Hp' & _).
    left. rewrite Hs', Hp', (coherent_idle _ Hc Hs). split; reflexivity.
  - cbn [step]. destruct (nth_error (pending st) k) as [[|res]|] eqn:Hn; try exact Hc.
    destruct (coherent_one _ _ _ Hc Hn) as (Hs & -> & Hp).
    destruct r as [res|err].
    + left. unfold sendText_fetched. cbn. rewrite Hp. auto.
    + destruct (@step_settles st (Fetch_settled 0 (Rejected err)) h 0 Await_fetch
                  (Throw err) eq_refl Hn eq_refl) as (_ & Hs' & Hp' & _).
      cbn [step] in Hs', Hp'. rewrite Hn in Hs', Hp'.
      right. rewrite Hs', Hp', Hp. split; reflexivity.
  - cbn [step]. destruct (nth_error (pending st) k) as [[|res]|] eqn:Hn; try exact Hc.
    destruct (coherent_one _ _ _ Hc Hn) as (Hs & -> & Hp).
    assert (Hsett : exists c, settles (Await_text res) (Text_settled 0 r) = Some c).
    { destruct r; simpl; eauto. }
    destruct Hsett as [c Hsett].
    destruct (@step_settles st (Text_settled 0 r) h 0 (Await_text res) c
                eq_refl Hn Hsett) as (_ & Hs' & Hp' & _).
    cbn [step] in Hs', Hp'. rewrite Hn in Hs', Hp'.
    right. rewrite Hs', Hp', Hp. split; reflexivity.
Qed.

Lemma reachable_coherent (st : state) : reachable st -> coherent st.
Proof.
  induction 1 as [st Hs Hp | st ev h _ IH].
  - right. split; assumption.
  - apply step_coherent. exact IH.
Qed.

(** ** Runs *)

Lemma run_cons (st : state) (ev : event) (h : turn) (rest : list (event * turn)) :
  fst (run st ((ev, h) :: rest)) = fst (run (fst (step st ev h)) rest)
  /\ snd (run st ((ev, h) :: rest))
     = snd (step st ev h) ++ snd (run (fst (step st ev h)) rest).
Proof.
  cbn [run]. destruct (step st ev h) as [st1 out1]. cbn [fst snd].
  destruct (run st1 rest) as [st2 out2]. split; reflexivity.
Qed.

Lemma run_app (st : state) (a b : list (event * turn)) :
  fst (run st (a ++ b)) = fst (run (fst (run st a)) b)
  /\ snd (run st (a ++ b)) = snd (run st a) ++ snd (run (fst (run st a)) b).
Proof.
  revert st. induction a as [|[ev h] a IH]; intros st; [split; reflexivity|].
  rewrite <- app_comm_cons.
  destruct (run_cons st ev h (a ++ b)) as [-> ->].
  destruct (run_cons st ev h a) as [-> ->].
  destruct (IH (fst (step st ev h))) as [-> ->].
  split; [reflexivity | apply app_assoc].
Qed.

Lemma fetches_app (a b : list effect) : fetches (a ++ b) = fetches a ++ fetches b.
Proof.
  induction a as [|[m | m e | url init] a IH]; cbn [fetches app]; [reflexivity| | |];
    rewrite ?IH; reflexivity.
Qed.

(** Calls made while a send is in flight change nothing and request
    nothing. *)
Lemma run_calls_in_flight (st : state) (l : list (option jsstring * turn)) :
  isSending st = true ->
  fst (run st (calls l)) = st /\ fetches (snd (run st (calls l))) = [].
Proof.
  intros Hs. induction l as [|[text h] l [IH1 IH2]]; [split; reflexivity|].
  change (calls ((text, h) :: l)) with ((Call_sendText text, h) :: calls l).
  destruct (run_cons st (Call_sendText text) h (calls l)) as [-> ->].
  cbn [step]. rewrite sendText_in_flight by assumption. cbn [fst snd].
  rewrite fetches_app. split; [exact IH1 | rewrite IH2; reflexivity].
Qed.

(** From the request to the end of the call, whatever the outcome. *)
Lemma run_settlement (st : state) (o : outcome)
  (during1 during2 : list (option jsstring * turn)) (h1 h2 : turn) :
  isSending st = true -> pending st = [Await_fetch] ->
  let r := run st (settlement o during1 during2 h1 h2) in
  messages (fst r)
  = messages st ++ [closing_message (outcome_completion o) (outcome_turn o h1 h2)]
  /\ isSending (fst r) = false /\ pending (fst r) = []
  /\ clientId (fst r) = clientId st
  /\ busy (fst r) = false /\ fetches (snd r) = [].
Proof.
  intros Hs Hp. cbv zeta.
  destruct (run_calls_in_flight st during1 Hs) as [Hc1 Hf1].
  destruct o as [reason | res reason | res t]; cbn [settlement].
  - destruct (run_app st (calls during1) [(Fetch_settled 0 (Rejected reason), h1)])
      as [-> ->].
    rewrite Hc1, fetches_app, Hf1.
    destruct (run_cons st (Fetch_settled 0 (Rejected reason)) h1 []) as [-> ->].
    cbn [run fst snd]. rewrite app_nil_r.
    destruct (@step_settles st (Fetch_settled 0 (Rejected reason)) h1 0 Await_fetch
                (Throw reason) eq_refl) as (Hm & Hi & Hpd & Hcl & Hb & Hf);
      [rewrite Hp; reflexivity | reflexivity |].
    rewrite ?Hm, ?Hi, ?Hpd, ?Hcl, ?Hb, ?Hf, ?Hp. repeat split.
  - set (st2 := with_pending [Await_text res] st).
    assert (Hstep : step st (Fetch_settled 0 (Fulfilled res)) h1 = (st2, [])).
    { cbn [step]. rewrite Hp. cbn. unfold st2. rewrite Hp. reflexivity. }
    destruct (run_calls_in_flight st2 during2 Hs) as [Hc2 Hf2].
    destruct (run_app st (calls during1)
                ([(Fetch_settled 0 (Fulfilled res), h1)]
                   ++ calls during2 ++ [(Text_settled 0 (Rejected reason), h2)]))
      as [-> ->].
    rewrite Hc1, fetches_app, Hf1. cbn [app].
    destruct (run_cons st (Fetch_settled 0 (Fulfilled res)) h1
                (calls during2 ++ [(Text_settled 0 (Rejected reason), h2)])) as [-> ->].
    rewrite Hstep. cbn [fst snd app].
    destruct (run_app st2 (calls during2) [(Text_settled 0 (Rejected reason), h2)])
      as [-> ->].
    rewrite Hc2, fetches_app, Hf2.
    destruct (run_cons st2 (Text_settled 0 (Rejected reason)) h2 []) as [-> ->].
    cbn [run fst snd]. rewrite app_nil_r.
    destruct (@step_settles st2 (Text_settled 0 (Rejected reason)) h2 0 (Await_text res)
                (Throw reason) eq_refl eq_refl eq_refl) as (Hm & Hi & Hpd & Hcl & Hb & Hf).
    rewrite ?Hm, ?Hi, ?Hpd, ?Hcl, ?Hb, ?Hf. repeat split.
  - set (st2 := with_pending [Await_text res] st).
    assert (Hstep : step st (Fetch_settled 0 (Fulfilled res)) h1 = (st2, [])).
    { cbn [step]. rewrite Hp. cbn. unfold st2. rewrite Hp. reflexivity. }
    destruct (run_calls_in_flight st2 during2 Hs) as [Hc2 Hf2].
    destruct (run_app st (calls during1)
                ([(Fetch_settled 0 (Fulfilled res), h1)]
                   ++ calls during2 ++ [(Text_settled 0 (Fulfilled t), h2)]))
      as [-> ->].
    rewrite Hc1, fetches_app, Hf1. cbn [app].
    destruct (run_cons st (Fetch_settled 0 (Fulfilled res)) h1
                (calls during2 ++ [(Text_settled 0 (Fulfilled t), h2)])) as [-> ->].
    rewrite Hstep. cbn [fst snd app].
    destruct (run_app st2 (calls during2) [(Text_settled 0 (Fulfilled t), h2)])
      as [-> ->].
    rewrite Hc2, fetches_app, Hf2.
    destruct (run_cons st2 (Text_settled 0 (Fulfilled t)) h2 []) as [-> ->].
    cbn [run fst snd]. rewrite app_nil_r.
    destruct (@step_settles st2 (Text_settled 0 (Fulfilled t)) h2 0 (Await_text res)
                (replyText res (fst (parse_body t)) (raw t)) eq_refl eq_refl eq_refl)
      as (Hm & Hi & Hpd & Hcl & Hb & Hf).
    rewrite ?Hm, ?Hi, ?Hpd, ?Hcl, ?Hb, ?Hf. repeat split.
Qed.

Lemma assistant_messages_app (a b : list Message) :
  assistant_messages (a ++ b) = assistant_messages a ++ assistant_messages b.
Proof. apply filter_app. Qed.

Lemma fails_settles (st : state) (ev : event) (err : error) :
  fails st ev err ->
  exists k s, resumed ev = Some k /\ nth_error (pending st) k = Some s
              /\ settles s ev = Some (Throw err).
Proof.
  intros [k e Hn | k res e Hn | k res t e Hn Hr].
  - exists k, Await_fetch. repeat split. exact Hn.
  - exists k, (Await_text res). repeat split. exact Hn.
  - exists k, (Await_text res). repeat split; [exact Hn|]. simpl. rewrite Hr. reflexivity.
Qed.

(** C1: a call of [sendText] made with no send in flight and an effective
    text that is not blank issues one request and, by the time it completes,
    has appended the user's message and exactly one assistant message, whether
    the request fails on the network, the body cannot be read, or a response
    is read (a reply, an HTTP error, a body that is not JSON); then the busy
    indicator is cleared and the flag reset.  Other calls of [sendText] may
    come in between. *)
Theorem sendText_appends_one_assistant_message (st : state) (arg : option jsstring)
  (h : turn) (o : outcome) (during1 during2 : list (option jsstring * turn))
  (h1 h2 : turn) :
  reachable st -> isSending st = false -> trim (effective_text arg st) <> [] ->
  let r := run st ((Call_sendText arg, h) :: settlement o during1 during2 h1 h2) in
  exists u a,
    messages (fst r) = messages st ++ [u; a]
    /\ role u = user /\ text u = JString (trim (effective_text arg st))
    /\ role a = assistant
    /\ a = closing_message (outcome_completion o) (outcome_turn o h1 h2)
    /\ assistant_messages (messages (fst r)) = assistant_messages (messages st) ++ [a]
    /\ busy (fst r) = false /\ isSending (fst r) = false /\ pending (fst r) = []
    /\ List.length (fetches (snd r)) = 1.
Proof.
  intros Hr Hs Ht. cbv zeta.
  pose proof (coherent_idle _ (reachable_coherent _ Hr) Hs) as Hp.
  destruct (run_cons st (Call_sendText arg) h (settlement o during1 during2 h1 h2))
    as [-> ->].
  cbn [step].
  destruct (sendText_sends arg h st Hs Ht) as (-> & Hm & Hs1 & Hp1 & _).
  rewrite Hp in Hp1. cbn [app] in Hp1.
  destruct (run_settlement _ o during1 during2 h1 h2 Hs1 Hp1)
    as (-> & -> & -> & _ & -> & Hf).
  rewrite Hm, fetches_app, Hf.
  eexists _, _. rewrite <- app_assoc. cbn [app].
  repeat split.
  rewrite assistant_messages_app. reflexivity.
Qed.

Lemma sendText_appends_one_assistant_message_witness :
  let st := page (js "c1") (js " hi ") in
  let o := Answered {| status := 200; statusText := js "OK" |}
             {| raw := js "{}"; JSON_parse := Return (JObject []) |} in
  (reachable st /\ isSending st = false /\ trim (effective_text None st) <> [])
  /\ exists u a,
       messages (fst (run st ((Call_sendText None, host true)
                                :: settlement o [(None, host true)] [] (host true)
                                     (host true))))
       = messages st ++ [u; a]
       /\ role u = user /\ role a = assistant /\ text a = JString NETWORK_UNSTABLE.
Proof.
  intros st o.
  assert (Hr : reachable st) by (apply reachable_idle; reflexivity).
  assert (Ht : trim (effective_text None st) <> []) by (vm_compute; discriminate).
  split; [repeat split; assumption|].
  destruct (@sendText_appends_one_assistant_message st None (host true) o
              [(None, host true)] [] (host true) (host true) Hr eq_refl Ht)
    as (u & a & Hm & Hu & _ & Ha & Hc & _).
  exists u, a. repeat split; try assumption.
  rewrite Hc. reflexivity.
Defined.

(** C7: a call of [sendText] whose effective text (the argument, else what
    the input holds, else nothing) is blank leaves the state as it is, so
    appends no message and touches neither the flag nor the busy indicator,
    and requests nothing. *)
Theorem sendText_blank_is_noop (arg : option jsstring) (h : turn) (st : state) :
  trim (effective_text arg st) = [] ->
  fst (sendText arg h st) = st /\ fetches (snd (sendText arg h st)) = [].
Proof.
  intros Ht. destruct (isSending st) eqn:Hs.
  - rewrite sendText_in_flight by assumption. split; reflexivity.
  - rewrite sendText_empty by assumption. split; reflexivity.
Qed.

Lemma sendText_blank_is_noop_witness :
  let st := page (js "c1") [32; 9; 0x3000; 10]%N in
  trim (effective_text None st) = []
  /\ fst (sendText None (host true) st) = st
  /\ fetches (snd (sendText None (host true) st)) = [].
Proof.
  intros st. split; [reflexivity|].
  apply (@sendText_blank_is_noop None (host true) st). reflexivity.
Defined.

(** C3 (as the spec has it) fails: with status 404 and the browser online the
    message is the text thrown at line 239, which ends in an exclamation
    mark that the fallback of [extractBotReply] does not have. *)
Lemma status_404_message_differs :
  let r := run (page (js "c1") (js "hi"))
             [(Call_sendText None, host true);
              (Fetch_settled 0 (Fulfilled {| status := 404; statusText := js "Not Found" |}),
               host true);
              (Text_settled 0 (Fulfilled {| raw := js "{}"; JSON_parse := Return (JObject []) |}),
               host true)] in
  map role (messages (fst r)) = [assistant; user; assistant]
  /\ map text (messages (fst r))
     = [JString WELCOME; JString (js "hi"); JString (js "網路不穩定，請再試一次!")]
  /\ map text (messages (fst r))
     <> [JString WELCOME; JString (js "hi"); JString NETWORK_UNSTABLE].
Proof.
  split; [vm_compute; reflexivity|].
  split; [vm_compute; reflexivity | vm_compute; discriminate].
Qed.

(** C3, amended: when the response of a send carries status 502 or 404 and
    its body has been read, the assistant message appended is, whatever the
    body holds, the fallback text followed by an exclamation mark,
    [網路不穩定，請再試一次!], if the browser is online, and the offline
    text if it is not. *)
Theorem status_404_502_message (st : state) (k : nat) (res : Response)
  (t : ResponseText) (h : turn) :
  nth_error (pending st) k = Some (Await_text res) ->
  status res = 502%N \/ status res = 404%N ->
  exists m,
    messages (fst (step st (Text_settled k (Fulfilled t)) h)) = messages st ++ [m]
    /\ role m = assistant
    /\ text m = JString (if navigator_onLine h then NETWORK_UNSTABLE ++ js "!"
                         else OFFLINE).
Proof.
  intros Hn Hst.
  assert (Hr : replyText res (fst (parse_body t)) (raw t)
               = Throw (new_Error (js "網路不穩定，請再試一次!"))).
  { unfold replyText, ok. destruct Hst as [-> | ->]; reflexivity. }
  destruct (step_settles st (Text_settled k (Fulfilled t)) h k (Await_text res)
              (Throw (new_Error (js "網路不穩定，請再試一次!"))) eq_refl Hn)
    as (Hm & _).
  { simpl. rewrite Hr. reflexivity. }
  eexists. split; [exact Hm|]. split; [reflexivity|].
  cbn [closing_message closing_text text]. unfold friendly.
  destruct (navigator_onLine h); reflexivity.
Qed.

Lemma status_404_502_message_witness :
  let st := fst (run (page (js "c1") (js "hi"))
                   [(Call_sendText None, host true);
                    (Fetch_settled 0 (Fulfilled {| status := 502;
                                                   statusText := js "Bad Gateway" |}),
                     host true)]) in
  let res := {| status := 502; statusText := js "Bad Gateway" |} in
  let t := {| raw := js "<html>"; JSON_parse := Throw (Error (js "SyntaxError") (js "Unexpected token")) |} in
  (nth_error (pending st) 0 = Some (Await_text res)
   /\ (status res = 502%N \/ status res = 404%N))
  /\ exists m,
       messages (fst (step st (Text_settled 0 (Fulfilled t)) (host true)))
       = messages st ++ [m]
       /\ role m = assistant
       /\ text m = JString (js "網路不穩定，請再試一次!").
Proof.
  intros st res t. split; [split; [vm_compute; reflexivity | left; reflexivity]|].
  apply (status_404_502_message st 0 res t (host true)).
  - vm_compute. reflexivity.
  - left. reflexivity.
Defined.

(** C6 (as the spec has it) fails: the language field of the body is
    [繁體中文], not [zh-Hant]. *)
Lemma request_language_differs :
  let out := snd (sendText (Some (js "hi")) (host true) (page (js "c1") [])) in
  exists init,
    fetches out = [(js "https://taipei-marathon-server.onrender.com/api/chat", init)]
    /\ JSON_stringify (JObject [(js "text", JString (js "hi"));
                                (js "clientId", JString (js "c1"));
                                (js "language", JString (js "繁體中文"))]) 0
       = Return (body init)
    /\ JSON_stringify (JObject [(js "text", JString (js "hi"));
                                (js "clientId", JString (js "c1"));
                                (js "language", JString (js "zh-Hant"))]) 0
       <> Return (body init).
Proof.
  eexists. split; [vm_compute; reflexivity|].
  split; [vm_compute; reflexivity | vm_compute; discriminate].
Qed.

(** C6, amended: every request of the session is the one a call of
    [sendText] makes: a POST to [API_BASE] followed by [/api/chat], with the
    headers [Content-Type: application/json] and [X-Client-Id] set to the
    client identifier, and for body the JSON text of an object with exactly
    the fields [text] (the trimmed content), [clientId] and [language], the
    last one the string [繁體中文]. *)
Theorem sendText_request (st : state) (ev : event) (h : turn) (url : jsstring)
  (init : RequestInit) :
  In (url, init) (fetches (snd (step st ev h))) ->
  exists arg,
    ev = Call_sendText arg
    /\ url = API_BASE ++ js "/api/chat"
    /\ method init = js "POST"
    /\ headers init = [(js "Content-Type", js "application/json");
                       (js "X-Client-Id", clientId st)]
    /\ JSON_stringify (JObject [(js "text", JString (trim (effective_text arg st)));
                                (js "clientId", JString (clientId st));
                                (js "language", JString (js "繁體中文"))]) 0
       = Return (body init)
    /\ body init = Some (chat_body_text (trim (effective_text arg st)) (clientId st)).
Proof.
  intros Hin. destruct ev as [arg | k r | k r].
  - exists arg. cbn [step] in Hin.
    destruct (isSending st) eqn:Hs.
    { rewrite sendText_in_flight in Hin by assumption. destruct Hin. }
    destruct (trim (effective_text arg st)) as [|c cs] eqn:Ht.
    { rewrite sendText_empty in Hin by assumption. destruct Hin. }
    assert (Hne : trim (effective_text arg st) <> []) by congruence.
    destruct (sendText_sends arg h st Hs Hne) as (Hout & _).
    rewrite Hout, Ht in Hin. cbn [fetches] in Hin.
    destruct Hin as [Heq | []]. injection Heq as <- <-.
    repeat split.
  - exfalso. cbn [step] in Hin.
    destruct (nth_error (pending st) k) as [[|res]|] eqn:Hn; try (destruct Hin).
    destruct r as [res|err]; [destruct Hin|].
    destruct (step_settles st (Fetch_settled k (Rejected err)) h k Await_fetch
                (Throw err) eq_refl Hn eq_refl) as (_ & _ & _ & _ & _ & Hf).
    cbn [step] in Hf. rewrite Hn in Hf. rewrite Hf in Hin. destruct Hin.
  - exfalso. cbn [step] in Hin.
    destruct (nth_error (pending st) k) as [[|res]|] eqn:Hn; try (destruct Hin).
    assert (Hsett : exists c, settles (Await_text res) (Text_settled k r) = Some c).
    { destruct r; simpl; eauto. }
    destruct Hsett as [c Hsett].
    destruct (step_settles st (Text_settled k r) h k (Await_text res) c
                eq_refl Hn Hsett) as (_ & _ & _ & _ & _ & Hf).
    cbn [step] in Hf. rewrite Hn in Hf. rewrite Hf in Hin. destruct Hin.
Qed.

Lemma sendText_request_witness :
  let st := page (js "c1") (js " hi ") in
  let url := js "https://taipei-marathon-server.onrender.com/api/chat" in
  let init := chat_init (js "c1") (Some (chat_body_text (js "hi") (js "c1"))) in
  In (url, init) (fetches (snd (step st (Call_sendText None) (host true))))
  /\ exists arg,
       Call_sendText None = Call_sendText arg
       /\ url = API_BASE ++ js "/api/chat"
       /\ method init = js "POST"
       /\ headers init = [(js "Content-Type", js "application/json");
                          (js "X-Client-Id", clientId st)]
       /\ JSON_stringify (JObject [(js "text", JString (trim (effective_text arg st)));
                                   (js "clientId", JString (clientId st));
                                   (js "language", JString (js "繁體中文"))]) 0
          = Return (body init)
       /\ body init = Some (chat_body_text (trim (effective_text arg st)) (clientId st)).
Proof.
  intros st url init.
  assert (Hin : In (url, init) (fetches (snd (step st (Call_sendText None) (host true)))))
    by (left; vm_compute; reflexivity).
  split; [exact Hin|].
  exact (sendText_request st (Call_sendText None) (host true) url init Hin).
Defined.

(** C10: whenever the [try] block of a send throws (the request or the
    reading of the body is rejected, a status such as 404 or 502 makes the
    code throw, or the reply cannot be built) and the browser reports no
    connectivity when the error is handled, the assistant message appended is
    the offline text, whatever the error says. *)
Theorem offline_message (st : state) (ev : event) (err : error) (h : turn) :
  fails st ev err -> navigator_onLine h = false ->
  exists m,
    messages (fst (step st ev h)) = messages st ++ [m]
    /\ role m = assistant /\ text m = JString OFFLINE.
Proof.
  intros Hf Hoff. destruct (fails_settles st ev err Hf) as (k & s & Hk & Hn & Hs).
  destruct (step_settles st ev h k s (Throw err) Hk Hn Hs) as (Hm & _).
  eexists. split; [exact Hm|]. split; [reflexivity|].
  cbn [closing_message closing_text text]. unfold friendly. rewrite Hoff. reflexivity.
Qed.

Lemma offline_message_witness :
  let res := {| status := 404; statusText := js "Not Found" |} in
  let st := fst (run (page (js "c1") (js "hi"))
                   [(Call_sendText None, host true);
                    (Fetch_settled 0 (Fulfilled res), host true)]) in
  let t := {| raw := js "{}"; JSON_parse := Return (JObject []) |} in
  let err := new_Error (js "網路不穩定，請再試一次!") in
  (fails st (Text_settled 0 (Fulfilled t)) err /\ navigator_onLine (host false) = false)
  /\ exists m,
       messages (fst (step st (Text_settled 0 (Fulfilled t)) (host false)))
       = messages st ++ [m]
       /\ role m = assistant /\ text m = JString OFFLINE.
Proof.
  intros res st t err.
  assert (Hf : fails st (Text_settled 0 (Fulfilled t)) err).
  { apply fails_reply with (res := res); vm_compute; reflexivity. }
  split; [split; [exact Hf | reflexivity]|].
  exact (offline_message st (Text_settled 0 (Fulfilled t)) err (host false) Hf eq_refl).
Defined.

(* ================================================================== *)
(** * Further properties of the session *)
(* ================================================================== *)

Lemma setThinking_push (on : bool) (m : Message) (st : state) :
  setThinking on (push m st) = push m (setThinking on st).
Proof.
  unfold setThinking. cbn [push with_messages elThinking].
  destruct (elThinking st), on; reflexivity.
Qed.

Lemma fetches_parse_body (t : ResponseText) : fetches (snd (parse_body t)) = [].
Proof.
  unfold parse_body. destruct (raw t); [reflexivity|].
  destruct (JSON_parse t); reflexivity.
Qed.

Lemma nth_error_nonempty {A} (l : list A) (k : nat) (a : A) :
  nth_error l k = Some a -> l <> [].
Proof. destruct l; [destruct k; discriminate | discriminate]. Qed.

(** Every run of code is one of the four transitions. *)
Lemma step_transition (st : state) (ev : event) (h : turn) :
  transition st (fst (step st ev h)) (snd (step st ev h)).
Proof.
  destruct ev as [arg | k r | k r]; cbn [step].
  - destruct (isSending st) eqn:Hs.
    { rewrite sendText_in_flight by assumption. apply transition_none. reflexivity. }
    destruct (trim (effective_text arg st)) as [|c cs] eqn:Ht.
    { rewrite sendText_empty by assumption. apply transition_none. reflexivity. }
    unfold sendText. rewrite Hs, Ht, JSON_stringify_chat_body. cbn [fst snd].
    apply (transition_sent st
             {| id := uid h 0; role := user; text := JString (c :: cs);
                ts := Date_now h 0 |}); reflexivity || exact Hs.
  - destruct (nth_error (pending st) k) as [[|res]|] eqn:Hn;
      try (apply transition_none; reflexivity).
    destruct r as [res|err]; [apply transition_head|].
    apply (transition_ended st
             {| id := uid h 0; role := assistant; text := JString (friendly err h);
                ts := Date_now h 0 |}); try reflexivity.
    exact (nth_error_nonempty _ _ _ Hn).
  - destruct (nth_error (pending st) k) as [[|res]|] eqn:Hn;
      try (apply transition_none; reflexivity).
    pose proof (nth_error_nonempty _ _ _ Hn) as Hne.
    destruct r as [t|err].
    + unfold sendText_read. pose proof (fetches_parse_body t) as Hl.
      destruct (parse_body t) as [data logged]. cbn [snd] in Hl.
      destruct (replyText res data (raw t)) as [reply|err].
      * unfold done, sendText_finally. cbn [fst snd]. rewrite setThinking_push.
        apply (transition_ended st
                 {| id := uid h 0; role := assistant; text := reply;
                    ts := Date_now h 0 |}); [reflexivity | exact Hl | exact Hne].
      * unfold sendText_catch, done, sendText_finally. cbn [fst snd].
        apply (transition_ended st
                 {| id := uid h 0; role := assistant; text := JString (friendly err h);
                    ts := Date_now h 0 |}); [reflexivity | | exact Hne].
        rewrite fetches_app, Hl. reflexivity.
    + apply (transition_ended st
               {| id := uid h 0; role := assistant; text := JString (friendly err h);
                  ts := Date_now h 0 |}); try reflexivity. exact Hne.
Qed.

Lemma transition_fields (st st' : state) (out : list effect) :
  transition st st' out ->
  clientId st' = clientId st
  /\ ((messages st' = messages st /\ isSending st' = isSending st /\ fetches out = [])
      \/ (exists u, messages st' = messages st ++ [u] /\ role u = user
                    /\ isSending st = false /\ isSending st' = true
                    /\ List.length (fetches out) = 1)
      \/ (exists a, messages st' = messages st ++ [a] /\ role a = assistant
                    /\ pending st <> [] /\ isSending st' = false /\ fetches out = [])).
Proof.
  intros [out' Hf | p | u p out' Hs Hu Hf | a p out' Ha Hf Hp].
  - split; [reflexivity|]. left. repeat split. exact Hf.
  - split; [reflexivity|]. left. repeat split.
  - cbn [clientId messages isSending with_pending].
    match goal with |- context [setThinking true ?x] =>
      destruct (setThinking_frame true x) as (-> & -> & _ & -> & _) end.
    match goal with |- context [render ?x] =>
      destruct (render_frame x) as (-> & -> & _ & -> & _) end.
    split; [reflexivity|]. right. left. exists u. repeat split; assumption.
  - cbn [clientId messages isSending with_pending with_isSending].
    match goal with |- context [render ?x] =>
      destruct (render_frame x) as (-> & _ & _ & -> & _) end.
    cbn [push with_messages messages clientId].
    destruct (setThinking_frame false st) as (-> & _ & _ & -> & _).
    split; [reflexivity|]. right. right. exists a. repeat split; assumption.
Qed.

(** X1: the message list only grows, at its end, and the client identifier
    never changes, whatever events come and whatever the host answers. *)
Theorem messages_append_only (st : state) (evs : list (event * turn)) :
  clientId (fst (run st evs)) = clientId st
  /\ exists appended, messages (fst (run st evs)) = messages st ++ appended.
Proof.
  revert st. induction evs as [|[ev h] evs IH]; intros st.
  - split; [reflexivity|]. exists []. cbn. rewrite app_nil_r. reflexivity.
  - destruct (run_cons st ev h evs) as [-> _].
    destruct (IH (fst (step st ev h))) as (-> & l & ->).
    destruct (transition_fields _ _ _ (step_transition st ev h))
      as (-> & [(-> & _) | [(u & -> & _) | (a & -> & _)]]);
      (split; [reflexivity|]); eexists; rewrite <- ?app_assoc; reflexivity.
Qed.

Lemma exchanges_snoc (n : nat) : exchanges n ++ [user; assistant] = exchanges (S n).
Proof. induction n as [|n IH]; [reflexivity|]. cbn [exchanges app]. rewrite IH. reflexivity. Qed.

Lemma run_exchanges (evs : list (event * turn)) :
  forall (st : state) (base : list Role) (n : nat),
    coherent st ->
    map role (messages st) = base ++ exchanges n ++ open_exchange st ->
    exists m,
      map role (messages (fst (run st evs)))
      = base ++ exchanges m ++ open_exchange (fst (run st evs))
      /\ m + List.length (open_exchange (fst (run st evs)))
         = n + List.length (open_exchange st) + List.length (fetches (snd (run st evs))).
Proof.
  induction evs as [|[ev h] evs IH]; intros st base n Hc Hm.
  - exists n. split; [exact Hm | cbn; lia].
  - destruct (run_cons st ev h evs) as [-> ->].
    pose proof (step_coherent st ev h Hc) as Hc'.
    rewrite fetches_app, length_app.
    destruct (transition_fields _ _ _ (step_transition st ev h))
      as (_ & [(Hms & Hs & Hf) | [(u & Hms & Hu & Hs & Hs' & Hf)
                                 | (a & Hms & Ha & Hp & Hs' & Hf)]]).
    + destruct (IH (fst (step st ev h)) base n Hc') as (m & H1 & H2).
      { rewrite Hms. unfold open_exchange. rewrite Hs. exact Hm. }
      exists m. split; [exact H1|]. rewrite H2, Hf. unfold open_exchange. rewrite Hs.
      cbn [List.length]. lia.
    + destruct (IH (fst (step st ev h)) base n Hc') as (m & H1 & H2).
      { rewrite Hms, map_app, Hm. unfold open_exchange. rewrite Hs, Hs'.
        cbn [map]. rewrite Hu, app_nil_r, <- app_assoc. reflexivity. }
      exists m. split; [exact H1|]. rewrite H2, Hf. unfold open_exchange.
      rewrite Hs, Hs'. cbn [List.length]. lia.
    + assert (Hs : isSending st = true).
      { destruct Hc as [[Hs _]|[_ Hp']]; [exact Hs | contradiction]. }
      destruct (IH (fst (step st ev h)) base (S n) Hc') as (m & H1 & H2).
      { rewrite Hms, map_app, Hm. unfold open_exchange. rewrite Hs, Hs'.
        cbn [map]. rewrite Ha, app_nil_r, <- exchanges_snoc, <- !app_assoc. reflexivity. }
      exists m. split; [exact H1|]. rewrite H2, Hf. unfold open_exchange.
      rewrite Hs, Hs'. cbn [List.length]. lia.
Qed.

Lemma assistant_messages_roles (ms : list Message) :
  List.length (assistant_messages ms)
  = List.length (filter (fun r => match r with assistant => true | user => false end)
                   (map role ms)).
Proof.
  induction ms as [|m ms IH]; [reflexivity|].
  unfold assistant_messages in *. cbn [filter map]. destruct (role m); cbn [List.length];
    rewrite IH; reflexivity.
Qed.

Lemma exchanges_assistants (n : nat) :
  List.length (filter (fun r => match r with assistant => true | user => false end)
                 (exchanges n)) = n.
Proof. induction n as [|n IH]; [reflexivity|]. cbn. rewrite IH. reflexivity. Qed.

(** From a state with no send in flight: the requests made are the
    assistant messages appended since, and one more when the flag is set. *)
Lemma run_requests (st : state) (evs : list (event * turn)) :
  isSending st = false -> pending st = [] ->
  List.length (fetches (snd (run st evs)))
  = List.length (assistant_messages (messages (fst (run st evs))))
    - List.length (assistant_messages (messages st))
    + List.length (open_exchange (fst (run st evs))).
Proof.
  intros Hs Hp.
  destruct (run_exchanges evs st (map role (messages st)) 0) as (m & H1 & H2).
  - right. split; assumption.
  - unfold open_exchange. rewrite Hs. cbn. rewrite app_nil_r. reflexivity.
  - unfold open_exchange in H2 at 2. rewrite Hs in H2. cbn [List.length] in H2.
    rewrite (assistant_messages_roles (messages (fst (run st evs)))), H1.
    rewrite !filter_app, !length_app, exchanges_assistants.
    rewrite <- assistant_messages_roles.
    assert (Ho : List.length
                   (filter (fun r => match r with assistant => true | user => false end)
                      (open_exchange (fst (run st evs)))) = 0).
    { unfold open_exchange. destruct (isSending (fst (run st evs))); reflexivity. }
    rewrite Ho. lia.
Qed.

Lemma run_quiet (evs : list (event * turn)) (st : state) :
  Forall (fun p => quiet (fst p) = true) evs -> isSending st = true ->
  isSending (fst (run st evs)) = true.
Proof.
  revert st. induction evs as [|[ev h] evs IH]; intros st Hq Hs; [exact Hs|].
  inversion Hq as [|p l Hev Hrest]; subst.
  destruct (run_cons st ev h evs) as [-> _]. apply IH; [exact Hrest|].
  destruct ev as [arg | k [res|err] | k r]; cbn [fst quiet] in Hev; try discriminate.
  - cbn [step]. rewrite sendText_in_flight by assumption. exact Hs.
  - cbn [step]. destruct (nth_error (pending st) k) as [[|res']|]; exact Hs.
Qed.

Lemma calls_quiet (l : list (option jsstring * turn)) :
  Forall (fun p => quiet (fst p) = true) (calls l).
Proof. induction l as [|c l IH]; constructor; [reflexivity | exact IH]. Qed.

(** A settlement is events that end no call, and then the one that ends
    it. *)
Lemma settlement_quiet (o : outcome) (during1 during2 : list (option jsstring * turn))
  (h1 h2 : turn) :
  exists body final,
    settlement o during1 during2 h1 h2 = body ++ [final]
    /\ Forall (fun p => quiet (fst p) = true) body.
Proof.
  destruct o as [reason | res reason | res t]; cbn [settlement].
  - exists (calls during1), (Fetch_settled 0 (Rejected reason), h1).
    split; [reflexivity | apply calls_quiet].
  - exists (calls during1 ++ [(Fetch_settled 0 (Fulfilled res), h1)] ++ calls during2),
      (Text_settled 0 (Rejected reason), h2).
    split; [rewrite <- !app_assoc; reflexivity|].
    apply Forall_app. split; [apply calls_quiet|].
    constructor; [reflexivity | apply calls_quiet].
  - exists (calls during1 ++ [(Fetch_settled 0 (Fulfilled res), h1)] ++ calls during2),
      (Text_settled 0 (Fulfilled t), h2).
    split; [rewrite <- !app_assoc; reflexivity|].
    apply Forall_app. split; [apply calls_quiet|].
    constructor; [reflexivity | apply calls_quiet].
Qed.

Lemma proper_prefix {A} (x final : A) (body pre post : list A) :
  x :: body ++ [final] = pre ++ post -> pre <> [] -> post <> [] ->
  exists pre' post', pre = x :: pre' /\ body = pre' ++ post'.
Proof.
  intros He Hpre Hpost.
  destruct pre as [|p pre']; [congruence|].
  destruct (exists_last Hpost) as (post' & z & ->).
  cbn [app] in He. injection He as <- He.
  rewrite app_assoc in He. apply app_inj_tail in He as [-> _].
  exists pre', post'. split; reflexivity.
Qed.

(** C2: a call of [sendText] made while the flag is set returns at once,
    leaves the whole state as it is and requests nothing (it only logs a
    line), so that two calls in a row, the second before the first has ended,
    make exactly one request.  The flag is set exactly while one request is
    outstanding: from a state with no send in flight and whatever events
    come, the requests made so far are as many as the sends that have ended
    (each one closed by its assistant message) when the flag is clear, and
    one more when it is set; through one send, the flag is set from the call
    that makes the request up to the run in which [fetch] is rejected or
    [res.text()] settles, it is clear from then on, and the next call with
    some text makes a request again.  Never is more than one call
    suspended. *)
Theorem sendText_ignored_while_sending (st : state) :
  reachable st ->
  (isSending st = true <-> List.length (pending st) = 1)
  /\ List.length (pending st) <= 1
  /\ (isSending st = true ->
      forall arg h,
        step st (Call_sendText arg) h
        = (st, [Console_log (js "正在發送中，忽略重複請求")]))
  /\ (isSending st = false ->
      forall a b ha hb,
        trim (effective_text a st) <> [] ->
        let r := run st [(Call_sendText a, ha); (Call_sendText b, hb)] in
        List.length (fetches (snd r)) = 1
        /\ fst r = fst (step st (Call_sendText a) ha)
        /\ isSending (fst r) = true)
  /\ (isSending st = false ->
      forall evs,
        let r := run st evs in
        let made := List.length (fetches (snd r)) in
        let ended := List.length (assistant_messages (messages (fst r)))
                     - List.length (assistant_messages (messages st)) in
        (isSending (fst r) = true <-> made = S ended)
        /\ (isSending (fst r) = false <-> made = ended))
  /\ (isSending st = false ->
      forall a h o during1 during2 h1 h2,
        trim (effective_text a st) <> [] ->
        let evs := (Call_sendText a, h) :: settlement o during1 during2 h1 h2 in
        (forall pre post,
            evs = pre ++ post -> pre <> [] -> post <> [] ->
            isSending (fst (run st pre)) = true)
        /\ isSending (fst (run st evs)) = false
        /\ (forall b hb,
               trim (effective_text b (fst (run st evs))) <> [] ->
               List.length
                 (fetches (snd (step (fst (run st evs)) (Call_sendText b) hb))) = 1)).
Proof.
  intros Hr. pose proof (reachable_coherent _ Hr) as Hc.
  split; [|split; [|split; [|split; [|split]]]].
  - destruct Hc as [[Hs Hl]|[Hs Hp]]; split; intros H; try assumption; try congruence.
    rewrite Hp in H. discriminate.
  - destruct Hc as [[_ Hl]|[_ Hp]]; [rewrite Hl | rewrite Hp]; auto.
  - intros Hs arg h. cbn [step]. apply sendText_in_flight. exact Hs.
  - intros Hs a b ha hb Ht. cbv zeta.
    destruct (run_cons st (Call_sendText a) ha [(Call_sendText b, hb)]) as [-> ->].
    cbn [step].
    destruct (sendText_sends a ha st Hs Ht) as (Hout & _ & Hs1 & _).
    destruct (run_calls_in_flight (fst (sendText a ha st)) [(b, hb)] Hs1) as [Hf Hq].
    change (calls [(b, hb)]) with [(Call_sendText b, hb)] in Hf, Hq.
    rewrite Hf, fetches_app, Hq, Hout. repeat split. exact Hs1.
  - intros Hs evs. cbv zeta.
    rewrite (run_requests st evs Hs (coherent_idle _ Hc Hs)).
    unfold open_exchange.
    destruct (isSending (fst (run st evs))); cbn [List.length];
      split; split; intros H; try reflexivity; try discriminate; lia.
  - intros Hs a h o during1 during2 h1 h2 Ht. cbv zeta.
    pose proof (coherent_idle _ Hc Hs) as Hp.
    destruct (sendText_sends a h st Hs Ht) as (_ & _ & Hs1 & Hp1 & _).
    rewrite Hp in Hp1. cbn [app] in Hp1.
    assert (Hend : isSending
                     (fst (run st ((Call_sendText a, h)
                                     :: settlement o during1 during2 h1 h2))) = false).
    { destruct (run_cons st (Call_sendText a) h (settlement o during1 during2 h1 h2))
        as [-> _].
      cbn [step].
      destruct (run_settlement _ o during1 during2 h1 h2 Hs1 Hp1) as (_ & Hs2 & _).
      exact Hs2. }
    split; [|split].
    + intros pre post He Hpre Hpost.
      destruct (settlement_quiet o during1 during2 h1 h2) as (body & final & Hb & Hq).
      rewrite Hb in He.
      destruct (proper_prefix _ _ _ _ _ He Hpre Hpost) as (pre' & post' & -> & ->).
      destruct (run_cons st (Call_sendText a) h pre') as [-> _].
      apply run_quiet; [|exact Hs1].
      apply Forall_app in Hq as [Hq _]. exact Hq.
    + exact Hend.
    + intros b hb Hb. cbn [step].
      destruct (sendText_sends b hb _ Hend Hb) as (-> & _). reflexivity.
Qed.

Lemma sendText_ignored_while_sending_witness :
  let st0 := page (js "c1") (js "hi") in
  let st := fst (step st0 (Call_sendText None) (host true)) in
  let o := Answered {| status := 200; statusText := js "OK" |}
             {| raw := js "{}"; JSON_parse := Return (JObject []) |} in
  let evs := (Call_sendText None, host true)
               :: settlement o [(None, host true)] [] (host true) (host true) in
  reachable st /\ isSending st = true /\ List.length (pending st) = 1
  /\ step st (Call_sendText (Some (js "again"))) (host true)
     = (st, [Console_log (js "正在發送中，忽略重複請求")])
  /\ List.length
       (fetches (snd (run st0
                        [(Call_sendText None, host true);
                         (Call_sendText (Some (js "again")), host true)]))) = 1
  /\ isSending (fst (run st0 [(Call_sendText None, host true);
                              (Call_sendText None, host true);
                              (Fetch_settled 0
                                 (Fulfilled {| status := 200; statusText := js "OK" |}),
                               host true)])) = true
  /\ isSending (fst (run st0 evs)) = false
  /\ List.length (fetches (snd (run st0 evs))) = 1
  /\ List.length (fetches (snd (step (fst (run st0 evs))
                                  (Call_sendText (Some (js "more"))) (host true)))) = 1.
Proof.
  intros st0 st o evs.
  assert (Hr0 : reachable st0) by (apply reachable_idle; reflexivity).
  assert (Hr : reachable st) by (apply reachable_step; exact Hr0).
  destruct (sendText_ignored_while_sending _ Hr) as (Hiff & _ & Hnoop & _).
  destruct (sendText_ignored_while_sending _ Hr0)
    as (_ & _ & _ & Htwice & Hcount & Hlife).
  assert (Hs : isSending st = true) by reflexivity.
  assert (Ht : trim (effective_text None st0) <> []) by (vm_compute; discriminate).
  destruct (Hlife eq_refl None (host true) o [(None, host true)] [] (host true)
              (host true) Ht) as (Hduring & Hend & Hnext).
  split; [exact Hr|]. split; [exact Hs|]. split; [apply Hiff; exact Hs|].
  split; [apply Hnoop; exact Hs|].
  split; [apply (Htwice eq_refl None (Some (js "again")) (host true) (host true) Ht)|].
  split.
  { apply (Hduring _ [(Text_settled 0 (Fulfilled {| raw := js "{}";
                                                    JSON_parse := Return (JObject []) |}),
                       host true)]); [reflexivity | discriminate | discriminate]. }
  split; [exact Hend|].
  split.
  { destruct (Hcount eq_refl evs) as [_ Hidle]. fold evs in Hend.
    rewrite (proj1 Hidle Hend). vm_compute. reflexivity. }
  apply Hnext. vm_compute. discriminate.
Defined.

(** X2: from a state with no send in flight, whatever events come, what has
    been appended to the conversation is a sequence of exchanges, a user
    message and then the assistant message that answers it, followed by one
    more user message exactly when a send is in flight; and one request was
    made for each user message appended. *)
Theorem conversation_alternates (st : state) (evs : list (event * turn)) :
  isSending st = false -> pending st = [] ->
  let r := run st evs in
  exists n,
    map role (messages (fst r))
    = map role (messages st) ++ exchanges n ++ open_exchange (fst r)
    /\ List.length (fetches (snd r)) = n + List.length (open_exchange (fst r)).
Proof.
  intros Hs Hp. cbv zeta.
  destruct (run_exchanges evs st (map role (messages st)) 0) as (m & H1 & H2).
  - right. split; assumption.
  - unfold open_exchange. rewrite Hs. cbn. rewrite app_nil_r. reflexivity.
  - exists m. split; [exact H1|]. unfold open_exchange in H2 at 2. rewrite Hs in H2.
    cbn [List.length] in H2. lia.
Qed.

Lemma conversation_alternates_witness :
  let st := page (js "c1") (js "hi") in
  let evs := [(Call_sendText None, host true);
              (Fetch_settled 0 (Rejected (TypeError (js "Failed to fetch"))), host true);
              (Call_sendText (Some (js "again")), host true);
              (Call_sendText (Some (js "and again")), host true)] in
  (isSending st = false /\ pending st = [])
  /\ map role (messages (fst (run st evs))) = [assistant; user; assistant; user]
  /\ exists n,
       map role (messages (fst (run st evs)))
       = map role (messages st) ++ exchanges n ++ open_exchange (fst (run st evs))
       /\ List.length (fetches (snd (run st evs)))
          = n + List.length (open_exchange (fst (run st evs))).
Proof.
  intros st evs. split; [split; reflexivity|].
  split; [vm_compute; reflexivity|].
  exact (conversation_alternates st evs eq_refl eq_refl).
Defined.

Lemma transition_in_sync (st st' : state) (out : list effect) :
  transition st st' out -> in_sync st -> in_sync st'.
Proof.
  intros [out' Hf | p | u p out' Hs Hu Hf | a p out' Ha Hf Hp]; intros Hi.
  - exact Hi.
  - exact Hi.
  - unfold in_sync, setThinking, render in *.
    destruct st as [cid ms sending rows input btn thinking pend].
    cbn in *. destruct rows, thinking; cbn; reflexivity || exact I.
  - unfold in_sync, setThinking, render in *.
    destruct st as [cid ms sending rows input btn thinking pend].
    cbn in *. destruct rows, thinking; cbn; reflexivity || exact I.
Qed.

Lemma in_sync_render (st : state) : in_sync (render st).
Proof.
  unfold in_sync, render. destruct (elMessages st) eqn:H; cbn; [reflexivity|].
  rewrite H. exact I.
Qed.

(** X3: once the script has loaded, the rows of the page are at every moment
    the rows of the message list, one for each message and in its order,
    whatever events come. *)
Theorem page_shows_messages (stored : option jsstring) (fresh : jsstring)
  (msgs : option (list Row)) (input : option HTMLInputElement)
  (btn : option HTMLButtonElement) (thinking : option ThinkingElement) (h0 : turn)
  (evs : list (event * turn)) :
  in_sync (fst (run (loaded stored fresh msgs input btn thinking h0) evs)).
Proof.
  assert (H : forall evs st, in_sync st -> in_sync (fst (run st evs))).
  { clear. induction evs as [|[ev h] evs IH]; intros st Hi; [exact Hi|].
    destruct (run_cons st ev h evs) as [-> _].
    apply IH. exact (transition_in_sync _ _ _ (step_transition st ev h) Hi). }
  apply H. unfold loaded. apply in_sync_render.
Qed.

Lemma transition_locked (st st' : state) (out : list effect) :
  transition st st' out -> locked (isSending st) st -> locked (isSending st') st'.
Proof.
  intros [out' Hf | p | u p out' Hs Hu Hf | a p out' Ha Hf Hp]; intros Hl.
  - exact Hl.
  - exact Hl.
  - unfold locked, setThinking, render in *.
    destruct st as [cid ms sending rows input btn thinking pend].
    cbn in *. destruct rows, thinking, input, btn; cbn; auto.
  - unfold locked, setThinking, render in *.
    destruct st as [cid ms sending rows input btn thinking pend].
    cbn in *. destruct rows, thinking, input, btn; cbn; auto.
Qed.

(** X4: on a page that starts with the busy indicator hidden and the input
    and the button enabled, the indicator is shown and the input and the
    button are disabled exactly while a send is in flight, whatever events
    come. *)
Theorem controls_locked_while_sending (st : state) (evs : list (event * turn)) :
  locked (isSending st) st ->
  locked (isSending (fst (run st evs))) (fst (run st evs)).
Proof.
  revert st. induction evs as [|[ev h] evs IH]; intros st Hl; [exact Hl|].
  destruct (run_cons st ev h evs) as [-> _].
  apply IH. exact (transition_locked _ _ _ (step_transition st ev h) Hl).
Qed.

Lemma controls_locked_while_sending_witness :
  let st := page (js "c1") (js "hi") in
  let evs := [(Call_sendText None, host true)] in
  locked (isSending st) st
  /\ isSending (fst (run st evs)) = true
  /\ elInput (fst (run st evs)) = Some {| input_value := []; input_disabled := true |}
  /\ locked (isSending (fst (run st evs))) (fst (run st evs)).
Proof.
  intros st evs.
  assert (Hl : locked (isSending st) st) by (repeat split).
  split; [exact Hl|]. split; [reflexivity|]. split; [reflexivity|].
  exact (controls_locked_while_sending st evs Hl).
Defined.

Lemma transition_unlocked (st st' : state) (out : list effect) :
  transition st st' out -> elThinking st = None ->
  elThinking st' = None /\ elBtnSend st' = elBtnSend st
  /\ option_map input_disabled (elInput st') = option_map input_disabled (elInput st).
Proof.
  intros [out' Hf | p | u p out' Hs Hu Hf | a p out' Ha Hf Hp]; intros Hn.
  - repeat split. exact Hn.
  - repeat split. exact Hn.
  - unfold setThinking, render.
    destruct st as [cid ms sending rows input btn thinking pend].
    cbn in *. subst thinking. destruct rows, input; cbn; repeat split.
  - unfold setThinking, render.
    destruct st as [cid ms sending rows input btn thinking pend].
    cbn in *. subst thinking. destruct rows, input; cbn; repeat split.
Qed.

(** X5: on a page without the busy indicator element, sending never disables
    (nor enables) the input and the button: [setThinking] returns before it
    touches them. *)
Theorem no_indicator_no_lock (st : state) (evs : list (event * turn)) :
  elThinking st = None ->
  elBtnSend (fst (run st evs)) = elBtnSend st
  /\ option_map input_disabled (elInput (fst (run st evs)))
     = option_map input_disabled (elInput st).
Proof.
  revert st. induction evs as [|[ev h] evs IH]; intros st Hn; [split; reflexivity|].
  destruct (run_cons st ev h evs) as [-> _].
  destruct (transition_unlocked _ _ _ (step_transition st ev h) Hn) as (Hn' & <- & <-).
  apply IH. exact Hn'.
Qed.

Lemma no_indicator_no_lock_witness :
  let st := loaded (Some (js "c1")) (js "f") (Some [])
              (Some {| input_value := js "hi"; input_disabled := false |})
              (Some {| button_disabled := false |}) None (host true) in
  let evs := [(Call_sendText None, host true)] in
  elThinking st = None
  /\ isSending (fst (run st evs)) = true
  /\ elBtnSend (fst (run st evs)) = elBtnSend st
  /\ option_map input_disabled (elInput (fst (run st evs)))
     = option_map input_disabled (elInput st).
Proof.
  intros st evs. split; [reflexivity|]. split; [reflexivity|].
  exact (no_indicator_no_lock st evs eq_refl).
Defined.

(* ================================================================== *)
(** * Further properties of the replies *)
(* ================================================================== *)

(** The message a response that has been read ends with. *)
Lemma response_read (st : state) (k : nat) (res : Response) (t : ResponseText) (h : turn) :
  nth_error (pending st) k = Some (Await_text res) ->
  messages (fst (step st (Text_settled k (Fulfilled t)) h))
  = messages st
      ++ [closing_message (replyText res (fst (parse_body t)) (raw t)) h].
Proof.
  intros Hn.
  destruct (step_settles st (Text_settled k (Fulfilled t)) h k (Await_text res)
              (replyText res (fst (parse_body t)) (raw t)) eq_refl Hn eq_refl)
    as (Hm & _).
  exact Hm.
Qed.

Lemma friendly_online (err : error) (h : turn) :
  navigator_onLine h = true -> message err <> [] -> friendly err h = message err.
Proof.
  intros Hon Hm. unfold friendly. rewrite Hon. cbn [negb].
  destruct (message err); [congruence | reflexivity].
Qed.

(** X6: when a response with a status within 200-299 has a body that is not
    empty and that [JSON.parse] rejects, the assistant message appended is the
    malformed-response text. *)
Theorem unparsable_reply (st : state) (k : nat) (res : Response) (t : ResponseText)
  (e : error) (h : turn) :
  nth_error (pending st) k = Some (Await_text res) ->
  ok res = true -> raw t <> [] -> JSON_parse t = Throw e ->
  exists m,
    messages (fst (step st (Text_settled k (Fulfilled t)) h)) = messages st ++ [m]
    /\ role m = assistant /\ text m = JString MALFORMED_RESPONSE.
Proof.
  intros Hn Hok Hraw Hp. rewrite (response_read st k res t h Hn).
  eexists. split; [reflexivity|]. split; [reflexivity|].
  cbn [closing_message text]. unfold replyText, parse_body. rewrite Hok, Hp.
  destruct (raw t) as [|c cs]; [congruence|]. reflexivity.
Qed.

Lemma unparsable_reply_witness :
  let res := {| status := 200; statusText := js "OK" |} in
  let st := fst (run (page (js "c1") (js "hi"))
                   [(Call_sendText None, host true);
                    (Fetch_settled 0 (Fulfilled res), host true)]) in
  let e := Error (js "SyntaxError") (js "Unexpected token <") in
  let t := {| raw := js "<html>"; JSON_parse := Throw e |} in
  (nth_error (pending st) 0 = Some (Await_text res) /\ ok res = true
   /\ raw t <> [] /\ JSON_parse t = Throw e)
  /\ exists m,
       messages (fst (step st (Text_settled 0 (Fulfilled t)) (host true)))
       = messages st ++ [m]
       /\ role m = assistant /\ text m = JString MALFORMED_RESPONSE.
Proof.
  intros res st e t.
  assert (Hn : nth_error (pending st) 0 = Some (Await_text res))
    by (vm_compute; reflexivity).
  assert (Hraw : raw t <> []) by (vm_compute; discriminate).
  split; [repeat split; assumption|].
  exact (unparsable_reply st 0 res t e (host true) Hn eq_refl Hraw eq_refl).
Defined.

(** X7: when a response with a status within 200-299 has an empty body, the
    body counts as an empty object and the assistant message appended is the
    network-unstable text. *)
Theorem empty_body_reply (st : state) (k : nat) (res : Response) (t : ResponseText)
  (h : turn) :
  nth_error (pending st) k = Some (Await_text res) ->
  ok res = true -> raw t = [] ->
  exists m,
    messages (fst (step st (Text_settled k (Fulfilled t)) h)) = messages st ++ [m]
    /\ role m = assistant /\ text m = JString NETWORK_UNSTABLE.
Proof.
  intros Hn Hok Hraw. rewrite (response_read st k res t h Hn).
  eexists. split; [reflexivity|]. split; [reflexivity|].
  cbn [closing_message text]. unfold replyText, parse_body. rewrite Hok, Hraw.
  reflexivity.
Qed.

Lemma empty_body_reply_witness :
  let res := {| status := 204; statusText := js "No Content" |} in
  let st := fst (run (page (js "c1") (js "hi"))
                   [(Call_sendText None, host true);
                    (Fetch_settled 0 (Fulfilled res), host true)]) in
  let t := {| raw := []; JSON_parse := Throw (Error (js "SyntaxError") []) |} in
  (nth_error (pending st) 0 = Some (Await_text res) /\ ok res = true /\ raw t = [])
  /\ exists m,
       messages (fst (step st (Text_settled 0 (Fulfilled t)) (host true)))
       = messages st ++ [m]
       /\ role m = assistant /\ text m = JString NETWORK_UNSTABLE.
Proof.
  intros res st t.
  assert (Hn : nth_error (pending st) 0 = Some (Await_text res))
    by (vm_compute; reflexivity).
  split; [repeat split; assumption|].
  exact (empty_body_reply st 0 res t (host true) Hn eq_refl eq_refl).
Defined.

(** X8: when a response with a status within 200-299 has a body that parses
    to an object with a text field that is not [null] and that [String]
    converts, the assistant message appended is that text trimmed, or the
    rephrase text when nothing is left; a message field and the other fields
    play no part. *)
Theorem text_reply (st : state) (k : nat) (res : Response) (t : ResponseText)
  (ps : list (jsstring * value)) (v : value) (s : jsstring) (h : turn) :
  nth_error (pending st) k = Some (Await_text res) ->
  ok res = true -> raw t <> [] -> JSON_parse t = Return (JObject ps) ->
  own ps (js "text") = Some v -> v <> JNull -> ToString v = Return s ->
  exists m,
    messages (fst (step st (Text_settled k (Fulfilled t)) h)) = messages st ++ [m]
    /\ role m = assistant /\ text m = JString (or_rephrase (trim s)).
Proof.
  intros Hn Hok Hraw Hp Hv Hnn Hs. rewrite (response_read st k res t h Hn).
  eexists. split; [reflexivity|]. split; [reflexivity|].
  cbn [closing_message text]. unfold replyText, parse_body. rewrite Hok, Hp.
  destruct (raw t) as [|c cs]; [congruence|]. cbn [negb fst].
  rewrite (extractBotReply_text ps v (c :: cs) Hv Hnn), Hs. reflexivity.
Qed.

Lemma text_reply_witness :
  let res := {| status := 200; statusText := js "OK" |} in
  let st := fst (run (page (js "c1") (js "hi"))
                   [(Call_sendText None, host true);
                    (Fetch_settled 0 (Fulfilled res), host true)]) in
  let ps := [(js "text", JString (js " 42 km ")); (js "message", JString (js "no"))] in
  let t := {| raw := js "{...}"; JSON_parse := Return (JObject ps) |} in
  (nth_error (pending st) 0 = Some (Await_text res) /\ ok res = true /\ raw t <> []
   /\ JSON_parse t = Return (JObject ps)
   /\ own ps (js "text") = Some (JString (js " 42 km ")) /\ JString (js " 42 km ") <> JNull
   /\ ToString (JString (js " 42 km ")) = Return (js " 42 km "))
  /\ exists m,
       messages (fst (step st (Text_settled 0 (Fulfilled t)) (host true)))
       = messages st ++ [m]
       /\ role m = assistant /\ text m = JString (js "42 km").
Proof.
  intros res st ps t.
  assert (Hn : nth_error (pending st) 0 = Some (Await_text res))
    by (vm_compute; reflexivity).
  assert (Hraw : raw t <> []) by (vm_compute; discriminate).
  assert (Hnn : JString (js " 42 km ") <> JNull) by discriminate.
  split; [repeat split; assumption|].
  exact (text_reply st 0 res t ps (JString (js " 42 km ")) (js " 42 km ") (host true)
           Hn eq_refl Hraw eq_refl eq_refl Hnn eq_refl).
Defined.


Lemma http_error_closing (st : state) (k : nat) (res : Response) (t : ResponseText)
  (s : jsstring) (h : turn) :
  nth_error (pending st) k = Some (Await_text res) ->
  ok res = false -> status res <> 502%N -> status res <> 404%N ->
  navigator_onLine h = true ->
  ToString (serverMsg (fst (parse_body t)) (raw t)) = Return s ->
  exists m,
    messages (fst (step st (Text_settled k (Fulfilled t)) h)) = messages st ++ [m]
    /\ role m = assistant
    /\ text m = JString (js "HTTP " ++ decimal (status res) ++ js " " ++ statusText res
                           ++ js " — " ++ s).
Proof.
  intros Hn Hok H502 H404 Hon Hs.
  rewrite (response_read st k res t h Hn).
  eexists. split; [reflexivity|]. split; [reflexivity|].
  cbn [closing_message text]. unfold replyText. rewrite Hok, Hs.
  apply N.eqb_neq in H502, H404. rewrite H502, H404.
  cbn [negb orb bind closing_text]. rewrite friendly_online; [reflexivity | exact Hon |].
  cbn [message new_Error]. intros H. apply app_eq_nil in H as [H _].
  vm_compute in H. discriminate.
Qed.



(** X10: with such a status and a body that [JSON.parse] rejects, the message
    carries the raw body. *)
Theorem http_error_unparsable (st : state) (k : nat) (res : Response) (t : ResponseText)
  (e : error) (h : turn) :
  nth_error (pending st) k = Some (Await_text res) ->
  ok res = false -> status res <> 502%N -> status res <> 404%N ->
  navigator_onLine h = true -> raw t <> [] -> JSON_parse t = Throw e ->
  exists m,
    messages (fst (step st (Text_settled k (Fulfilled t)) h)) = messages st ++ [m]
    /\ role m = assistant
    /\ text m = JString (js "HTTP " ++ decimal (status res) ++ js " " ++ statusText res
                           ++ js " — " ++ raw t).
Proof.
  intros Hn Hok H502 H404 Hon Hraw Hp.
  refine (http_error_closing st k res t (raw t) h Hn Hok H502 H404 Hon _).
  unfold parse_body. rewrite Hp. destruct (raw t) as [|c cs]; [congruence|]. reflexivity.
Qed.

Lemma http_error_unparsable_witness :
  let res := {| status := 503; statusText := js "Service Unavailable" |} in
  let st := fst (run (page (js "c1") (js "hi"))
                   [(Call_sendText None, host true);
                    (Fetch_settled 0 (Fulfilled res), host true)]) in
  let e := Error (js "SyntaxError") (js "Unexpected token <") in
  let t := {| raw := js "<html>"; JSON_parse := Throw e |} in
  (nth_error (pending st) 0 = Some (Await_text res) /\ ok res = false
   /\ status res <> 502%N /\ status res <> 404%N /\ navigator_onLine (host true) = true
   /\ raw t <> [] /\ JSON_parse t = Throw e)
  /\ exists m,
       messages (fst (step st (Text_settled 0 (Fulfilled t)) (host true)))
       = messages st ++ [m]
       /\ role m = assistant
       /\ text m = JString (js "HTTP 503 Service Unavailable — <html>").
Proof.
  intros res st e t.
  assert (Hn : nth_error (pending st) 0 = Some (Await_text res))
    by (vm_compute; reflexivity).
  assert (H502 : status res <> 502%N) by discriminate.
  assert (H404 : status res <> 404%N) by discriminate.
  assert (Hraw : raw t <> []) by (vm_compute; discriminate).
  split; [repeat split; assumption|].
  destruct (http_error_unparsable st 0 res t e (host true) Hn eq_refl H502 H404
              eq_refl Hraw eq_refl) as (m & Hm & Hr & Ht).
  exists m. split; [exact Hm|]. split; [exact Hr|].
  rewrite Ht. vm_compute. reflexivity.
Defined.

(** X11: when the [try] block of a send throws and the browser is online,
    the assistant message appended is the message of the error as it is; an
    error without message is shown by its name. *)
Theorem online_error_message (st : state) (ev : event) (err : error) (h : turn) :
  fails st ev err -> navigator_onLine h = true ->
  exists m,
    messages (fst (step st ev h)) = messages st ++ [m]
    /\ role m = assistant
    /\ text m = JString (match message err with
                         | [] => name err
                         | msg => msg
                         end).
Proof.
  intros Hf Hon. destruct (fails_settles st ev err Hf) as (k & s & Hk & Hn & Hs).
  destruct (step_settles st ev h k s (Throw err) Hk Hn Hs) as (Hm & _).
  eexists. split; [exact Hm|]. split; [reflexivity|].
  cbn [closing_message closing_text text]. unfold friendly, Error_toString. rewrite Hon.
  cbn [negb]. destruct (message err); [|reflexivity]. destruct (name err); reflexivity.
Qed.

Lemma online_error_message_witness :
  let st := fst (step (page (js "c1") (js "hi")) (Call_sendText None) (host true)) in
  let err := TypeError (js "Failed to fetch") in
  (fails st (Fetch_settled 0 (Rejected err)) err /\ navigator_onLine (host true) = true)
  /\ exists m,
       messages (fst (step st (Fetch_settled 0 (Rejected err)) (host true)))
       = messages st ++ [m]
       /\ role m = assistant /\ text m = JString (js "Failed to fetch").
Proof.
  intros st err.
  assert (Hf : fails st (Fetch_settled 0 (Rejected err)) err).
  { apply fails_fetch. vm_compute. reflexivity. }
  split; [split; [exact Hf | reflexivity]|].
  exact (online_error_message st (Fetch_settled 0 (Rejected err)) err (host true) Hf eq_refl).
Defined.

(* ================================================================== *)
(** * Further properties of extractBotReply *)
(* ================================================================== *)

Lemma or_rephrase_nonempty (s : jsstring) : or_rephrase s <> [].
Proof. destruct s; [vm_compute|]; discriminate. Qed.

Lemma wrap_nonempty (opening closing : N) (gap stepback : jsstring)
  (partial : list jsstring) : wrap opening closing gap stepback partial <> [].
Proof. unfold wrap. destruct partial, gap; discriminate. Qed.

Lemma JSON_stringify_nonempty (v : value) (space : nat) (s : jsstring) :
  typeof v = T_object -> v <> JNull ->
  JSON_stringify v space = Return (Some s) -> s <> [].
Proof.
  unfold JSON_stringify.
  destruct v; simpl; try discriminate; try congruence; intros _ _;
    match goal with |- context [bind ?c _] => destruct c end; simpl; intros H;
    try discriminate; injection H as <-; apply wrap_nonempty.
Qed.

(** X12: the reply is never the empty string, except for an object without
    usable text and message field whose error property is truthy and converts
    to the empty string (an empty array, for one). *)
Theorem extractBotReply_empty_reply (data : value) (raw : jsstring) :
  extractBotReply data raw = Return (JString []) ->
  typeof data = T_object /\ textContent_of data = JNull
  /\ ToBoolean (Get data (js "error")) = true
  /\ ToString (Get data (js "error")) = Return [].
Proof.
  intros H.
  destruct data as [ | | b | x | z | s | l | ps];
    try (exfalso; unfold extractBotReply in H; simpl in H; rewrite ?orb_true_r in H;
         injection H as H; revert H; (apply or_rephrase_nonempty || (vm_compute; discriminate))).
  - (* an array *)
    exfalso. revert H. unfold extractBotReply, textContent_of.
    cbn [HasProperty Get ToBoolean typeof type_tag_eqb negb orb is_null].
    destruct (List.length (meaningfulKeys (JArray l))); [vm_compute; discriminate|].
    destruct (JSON_stringify (JArray l) 2) as [[s|]|e] eqn:Hs; try (vm_compute; discriminate).
    intros H. injection H as ->.
    exact (JSON_stringify_nonempty (JArray l) 2 [] eq_refl ltac:(discriminate) Hs eq_refl).
  - destruct (is_null (textContent_of (JObject ps))) eqn:Hnull.
    + apply is_null_true in Hnull. rewrite extractBotReply_no_textContent in H by exact Hnull.
      split; [reflexivity|]. split; [exact Hnull|].
      destruct (List.length (meaningfulKeys (JObject ps)));
        [exfalso; revert H; vm_compute; discriminate|].
      destruct (ToBoolean (Get (JObject ps) (js "error"))).
      * split; [reflexivity|].
        destruct (ToString (Get (JObject ps) (js "error"))); [|discriminate].
        simpl in H. injection H as ->. reflexivity.
      * exfalso.
        destruct (ToBoolean (Get (JObject ps) (js "errorRaw")));
          [revert H; vm_compute; discriminate|].
        destruct (JSON_stringify (JObject ps) 2) as [[s|]|e] eqn:Hs;
          try (revert H; vm_compute; discriminate).
        injection H as ->.
        exact (JSON_stringify_nonempty (JObject ps) 2 [] eq_refl ltac:(discriminate) Hs
                 eq_refl).
    + exfalso. rewrite extractBotReply_textContent in H by exact Hnull.
      destruct (ToString (textContent_of (JObject ps))); [|discriminate].
      simpl in H. injection H as H. exact (or_rephrase_nonempty _ H).
Qed.

Lemma extractBotReply_empty_reply_witness :
  let data := JObject [(js "error", JArray [])] in
  extractBotReply data [] = Return (JString [])
  /\ typeof data = T_object /\ textContent_of data = JNull
  /\ ToBoolean (Get data (js "error")) = true
  /\ ToString (Get data (js "error")) = Return [].
Proof.
  intros data.
  assert (H : extractBotReply data [] = Return (JString [])) by reflexivity.
  split; [exact H|]. exact (extractBotReply_empty_reply data [] H).
Defined.

(** X13: for an object without text field, a message field that is not
    [null] decides the reply: [String] of it, trimmed, or the rephrase text
    when nothing is left. *)
Theorem extractBotReply_message (ps : list (jsstring * value)) (v : value)
  (raw : jsstring) :
  own ps (js "text") = None -> own ps (js "message") = Some v -> v <> JNull ->
  extractBotReply (JObject ps) raw
  = (processed <- ToString v ;; Return (JString (or_rephrase (trim processed)))).
Proof.
  intros Ht Hm Hv.
  assert (Htc : textContent_of (JObject ps) = v).
  { unfold textContent_of. rewrite !HasProperty_own, Ht, Hm. apply Get_own. exact Hm. }
  rewrite extractBotReply_textContent, Htc; [reflexivity|].
  rewrite Htc. destruct v; try reflexivity. congruence.
Qed.

Lemma extractBotReply_message_witness :
  let ps := [(js "clientId", JString (js "c1"));
             (js "message", JNumber (Finite false 42 2))] in
  (own ps (js "text") = None
   /\ own ps (js "message") = Some (JNumber (Finite false 42 2))
   /\ JNumber (Finite false 42 2) <> JNull)
  /\ extractBotReply (JObject ps) [] = Return (JString (js "42")).
Proof.
  intros ps.
  assert (Hv : JNumber (Finite false 42 2) <> JNull) by discriminate.
  split; [repeat split; assumption|].
  exact (extractBotReply_message ps (JNumber (Finite false 42 2)) [] eq_refl eq_refl Hv).
Defined.

Lemma own_absent (ps : list (jsstring * value)) (k : jsstring) :
  ~ In k (map fst ps) -> own ps k = None.
Proof.
  induction ps as [|[k' v] ps IH]; intros Hn; [reflexivity|].
  cbn [own]. destruct (jsstring_eqb k' k) eqn:He.
  - exfalso. apply Hn. left. apply jsstring_eqb_eq. exact He.
  - apply IH. intros Hin. apply Hn. right. exact Hin.
Qed.

(** X14: an object that has no property, or none but clientId, gets the
    network-unstable text as its reply. *)
Theorem extractBotReply_only_clientId (ps : list (jsstring * value)) (raw : jsstring) :
  (forall k, In k (map fst ps) -> k = js "clientId") ->
  extractBotReply (JObject ps) raw = Return (JString NETWORK_UNSTABLE).
Proof.
  intros Hk.
  assert (Habs : forall k, k <> js "clientId" -> own ps k = None).
  { intros k Hne. apply own_absent. intros Hin. apply Hne. apply Hk. exact Hin. }
  rewrite extractBotReply_no_textContent.
  - assert (Hmk : meaningfulKeys (JObject ps) = []).
    { unfold meaningfulKeys. cbn [Object_keys].
      induction (map fst ps) as [|k ks IH]; [reflexivity|].
      cbn [filter]. rewrite (Hk k (or_introl eq_refl)), jsstring_eqb_refl. cbn [negb].
      apply IH. intros k' Hin. apply Hk. right. exact Hin. }
    rewrite Hmk. reflexivity.
  - apply textContent_of_absent; apply Habs; vm_compute; discriminate.
Qed.

Lemma extractBotReply_only_clientId_witness :
  let ps := [(js "clientId", JString (js "c1"))] in
  (forall k, In k (map fst ps) -> k = js "clientId")
  /\ extractBotReply (JObject ps) (js "{}") = Return (JString NETWORK_UNSTABLE).
Proof.
  intros ps.
  assert (Hk : forall k, In k (map fst ps) -> k = js "clientId").
  { intros k [<- | []]. reflexivity. }
  split; [exact Hk|].
  exact (extractBotReply_only_clientId ps (js "{}") Hk).
Defined.

(* ================================================================== *)
(** * Properties of the client identifier and of the event binding *)
(* ================================================================== *)

Lemma new_clientId_nonempty (e : entropy) : new_clientId e <> [].
Proof.
  unfold new_clientId.
  assert (H : decimalZ (timestamp e) ++ js "-" ++ random36 e <> []).
  { intros H. apply app_eq_nil in H as [_ H]. apply app_eq_nil in H as [H _].
    vm_compute in H. discriminate. }
  destruct (randomUUID e) as [[|c u]|]; try exact H. discriminate.
Qed.

(** X15: the client identifier is never empty; once the script has run,
    storage holds it; and the next load of the script takes it from there,
    whatever the host would generate then.  It is the identifier of the
    loaded session. *)
Theorem clientId_persists (stored : storage) (e e' : entropy) :
  let cid := fst (clientId_init stored e) in
  let stored' := snd (clientId_init stored e) in
  cid <> [] /\ stored' = Some cid
  /\ clientId_init stored' e' = (cid, stored')
  /\ forall msgs input btn thinking h,
       clientId (loaded stored (new_clientId e) msgs input btn thinking h) = cid.
Proof.
  cbv zeta. unfold clientId_init.
  pose proof (new_clientId_nonempty e) as Hne.
  destruct stored as [[|c cs]|]; cbn [fst snd].
  - destruct (new_clientId e) as [|d ds] eqn:Hn; [congruence|].
    repeat split; try discriminate.
    intros. unfold loaded. destruct (render_frame
      {| clientId := d :: ds; messages := [{| id := uid h 0; role := assistant;
                                               text := JString WELCOME;
                                               ts := Date_now h 0 |}];
         isSending := false; elMessages := msgs; elInput := input; elBtnSend := btn;
         elThinking := thinking; pending := [] |}) as (_ & _ & _ & -> & _). reflexivity.
  - repeat split; try discriminate.
    intros. unfold loaded.
    match goal with |- clientId (render ?x) = _ =>
      destruct (render_frame x) as (_ & _ & _ & -> & _) end. reflexivity.
  - destruct (new_clientId e) as [|d ds] eqn:Hn; [congruence|].
    repeat split; try discriminate.
    intros. unfold loaded.
    match goal with |- clientId (render ?x) = _ =>
      destruct (render_frame x) as (_ & _ & _ & -> & _) end. reflexivity.
Qed.

Lemma attachEvents_attached (st st' : state) (b : bindings) :
  eventsAttached (fst (attachEvents st b)) = true
  /\ fst (attachEvents st' (fst (attachEvents st b))) = fst (attachEvents st b).
Proof.
  unfold attachEvents. destruct (eventsAttached b) eqn:Hb; cbn [fst eventsAttached].
  - rewrite Hb. split; reflexivity.
  - split; reflexivity.
Qed.

Lemma attachEvents_iter (st : state) (n : nat) :
  Nat.iter (S n) (fun b => fst (attachEvents st b)) unbound = fst (attachEvents st unbound).
Proof.
  induction n as [|n IH]; [reflexivity|].
  change (Nat.iter (S (S n)) (fun b => fst (attachEvents st b)) unbound)
    with (fst (attachEvents st (Nat.iter (S n) (fun b => fst (attachEvents st b)) unbound))).
  rewrite IH. apply attachEvents_attached.
Qed.

(** X16: binding the events again binds nothing: however often
    [attachEvents] runs, the button has one click listener and the input one
    keydown listener (none where the element is missing). *)
Theorem attachEvents_binds_once (st : state) (n : nat) :
  let b := Nat.iter (S n) (fun b => fst (attachEvents st b)) unbound in
  eventsAttached b = true
  /\ click_listeners b = match elBtnSend st with Some _ => 1 | None => 0 end
  /\ keydown_listeners b = match elInput st with Some _ => 1 | None => 0 end
  /\ fst (attachEvents st b) = b.
Proof.
  cbv zeta. rewrite attachEvents_iter.
  split; [reflexivity|]. split; [reflexivity|]. split; [reflexivity|].
  apply attachEvents_attached.
Qed.

Lemma dispatch_one (listener : turn -> state -> bool * (state * list effect))
  (h : turn) (st : state) :
  dispatch listener [h] st = listener h st.
Proof.
  cbn [dispatch]. destruct (listener h st) as [p [st1 out1]].
  rewrite orb_false_r, app_nil_r. reflexivity.
Qed.

(** X17: a click on the button, and Enter without Shift in the input, make
    one call of [sendText] with no argument and suppress the default action,
    however often [attachEvents] has run. *)
Theorem click_and_enter_send_once (st : state) (n : nat) (h : turn) (hs : list turn) :
  elBtnSend st <> None -> elInput st <> None ->
  let b := Nat.iter (S n) (fun b => fst (attachEvents st b)) unbound in
  click b (h :: hs) st = (true, sendText None h st)
  /\ keydown b (js "Enter") false (h :: hs) st = (true, sendText None h st).
Proof.
  intros Hb Hi. cbv zeta. rewrite attachEvents_iter.
  unfold click, keydown, attachEvents. cbn [eventsAttached unbound fst click_listeners
    keydown_listeners].
  destruct (elBtnSend st); [|congruence]. destruct (elInput st); [|congruence].
  cbn [firstn]. rewrite !dispatch_one. split; reflexivity.
Qed.

Lemma click_and_enter_send_once_witness :
  let st := page (js "c1") (js "hi") in
  let b := Nat.iter 3 (fun b => fst (attachEvents st b)) unbound in
  (elBtnSend st <> None /\ elInput st <> None)
  /\ click b [host true; host true; host true] st = (true, sendText None (host true) st)
  /\ keydown b (js "Enter") false [host true; host true; host true] st
     = (true, sendText None (host true) st)
  /\ List.length (fetches (snd (snd (click b [host true; host true; host true] st)))) = 1.
Proof.
  intros st b.
  assert (Hb : elBtnSend st <> None) by discriminate.
  assert (Hi : elInput st <> None) by discriminate.
  split; [split; assumption|].
  destruct (click_and_enter_send_once st 2 (host true) [host true; host true] Hb Hi)
    as [Hc Hk].
  split; [exact Hc|]. split; [exact Hk|].
  unfold b. rewrite Hc. vm_compute. reflexivity.
Defined.

(** X18: any other key, and Enter with Shift, do nothing: the state is as it
    was, nothing is requested and the default action of the key (a line
    break, for Enter) is left to happen. *)
Theorem other_keys_do_nothing (b : bindings) (key : jsstring) (shiftKey : bool)
  (hs : list turn) (st : state) :
  key <> js "Enter" \/ shiftKey = true ->
  keydown b key shiftKey hs st = (false, (st, [])).
Proof.
  intros Hk. unfold keydown.
  assert (Hl : forall h st', on_keydown key shiftKey h st' = (false, (st', []))).
  { intros h st'. unfold on_keydown.
    destruct Hk as [Hk | ->]; [|rewrite andb_false_r; reflexivity].
    destruct (jsstring_eqb key (js "Enter")) eqn:He; [|reflexivity].
    apply jsstring_eqb_eq in He. contradiction. }
  induction (firstn (keydown_listeners b) hs) as [|h l IH]; [reflexivity|].
  cbn [dispatch]. rewrite Hl, IH. reflexivity.
Qed.

Lemma other_keys_do_nothing_witness :
  let st := page (js "c1") (js "hi") in
  let b := fst (attachEvents st unbound) in
  (js "Enter" <> js "Enter" \/ true = true)
  /\ keydown b (js "Enter") true [host true] st = (false, (st, [])).
Proof.
  intros st b. split; [right; reflexivity|].
  exact (other_keys_do_nothing b (js "Enter") true [host true] st (or_intror eq_refl)).
Defined.

Lemma transition_input_empty (st st' : state) (out : list effect) :
  transition st st' out ->
  (isSending st = false -> isSending st' = true -> input_empty st')
  /\ (input_empty st -> input_empty st').
Proof.
  intros [out' Hf | p | u p out' Hs Hu Hf | a p out' Ha Hf Hp].
  - split; [congruence | auto].
  - split; [cbn; congruence | auto].
  - unfold input_empty, setThinking, render.
    destruct st as [cid ms sending rows input btn thinking pend].
    cbn in *. destruct rows, thinking, input; cbn; auto.
  - unfold input_empty, setThinking, render.
    destruct st as [cid ms sending rows input btn thinking pend].
    cbn in *. split; [discriminate|]. destruct rows, thinking, input; cbn; auto.
Qed.

Lemma run_input_empty (evs : list (event * turn)) (st : state) :
  input_empty st -> input_empty (fst (run st evs)).
Proof.
  revert st. induction evs as [|[ev h] evs IH]; intros st Hi; [exact Hi|].
  destruct (run_cons st ev h evs) as [-> _]. apply IH.
  exact (proj2 (transition_input_empty _ _ _ (step_transition st ev h)) Hi).
Qed.

(** X19: a call that sends empties the input, also when its text came as an
    argument, and no later run of the script's code puts anything into it;
    so that once the send is over, a further click or Enter sends nothing
    unless something has been typed. *)
Theorem send_empties_input (st : state) (arg : option jsstring) (h : turn)
  (evs : list (event * turn)) :
  isSending st = false -> trim (effective_text arg st) <> [] ->
  let st' := fst (run st ((Call_sendText arg, h) :: evs)) in
  input_empty st'
  /\ (isSending st' = false -> forall h', sendText None h' st' = (st', [])).
Proof.
  intros Hs Ht. cbv zeta.
  destruct (run_cons st (Call_sendText arg) h evs) as [-> _].
  assert (Hi : input_empty (fst (run (fst (step st (Call_sendText arg) h)) evs))).
  { apply run_input_empty.
    apply (proj1 (transition_input_empty _ _ _ (step_transition st (Call_sendText arg) h)));
      [exact Hs|].
    cbn [step]. destruct (sendText_sends arg h st Hs Ht) as (_ & _ & Hs' & _). exact Hs'. }
  split; [exact Hi|].
  intros Hidle h'. apply sendText_empty; [exact Hidle|].
  unfold effective_text, input_empty in *.
  destruct (elInput (fst (run (fst (step st (Call_sendText arg) h)) evs)));
    [rewrite Hi|]; reflexivity.
Qed.

Lemma send_empties_input_witness :
  let st := page (js "c1") (js "typed") in
  let evs := [(Fetch_settled 0 (Rejected (TypeError (js "Failed to fetch"))), host true)] in
  let st' := fst (run st ((Call_sendText (Some (js "hi")), host true) :: evs)) in
  (isSending st = false /\ trim (effective_text (Some (js "hi")) st) <> [])
  /\ elInput st' = Some {| input_value := []; input_disabled := false |}
  /\ input_empty st'
  /\ sendText None (host true) st' = (st', []).
Proof.
  intros st evs st'.
  assert (Ht : trim (effective_text (Some (js "hi")) st) <> [])
    by (vm_compute; discriminate).
  split; [split; [reflexivity | exact Ht]|].
  split; [vm_compute; reflexivity|].
  destruct (send_empties_input st (Some (js "hi")) (host true) evs eq_refl Ht)
    as [Hi Hnoop].
  split; [exact Hi|]. apply Hnoop. vm_compute. reflexivity.
Defined.
